(** * Vote integrity of the talent-show voting system

    A shallow embedding of the vote-integrity logic of the repository:

    - the reference pseudocode of the two endpoints, [get_token] and
      [post_vote] (manage_workflow/updated_improved_design_v2.md, section 6);
    - the fragments of backend/main.py and backend/config.py quoted in
      manage_workflow/implementation_with_claude.md: [compute_fingerprint],
      the IP-change detection of the vote endpoint, the vote counts of the
      token response, and the [Settings];
    - the client: [isTokenExpired], [initializeToken] and [ensureValidToken]
      of frontend/src/services/tokenService.js and the votes-remaining
      computation of [initializeSession] in the App component.

    Times are integers ([Z]): seconds on the server, milliseconds on the
    client.  The clock, the random token generator and the rate limiter are
    readings supplied with each request. *)

From Stdlib Require Import ZArith Bool Lia.
From stdpp Require Import base tactics option list strings gmap relations.

Local Open Scope string_scope.
Local Open Scope Z_scope.

(** ** Settings (backend/config.py) *)

Record Settings := {
  MAX_VOTES_PER_DEVICE : nat;
  MAX_VOTES_PER_IP : nat;
  MAX_IP_CHANGES_ALLOWED : nat
}.

(** The defaults of the class [Settings]. *)
Definition settings : Settings :=
  {| MAX_VOTES_PER_DEVICE := 3; MAX_VOTES_PER_IP := 3;
     MAX_IP_CHANGES_ALLOWED := 1 |}.

(** ** Data model *)

(** A row of [vote_sessions], keyed by its unique fingerprint. *)
Record VoteSession := {
  votes_used : nat;
  ip_address : option string;
  is_suspicious : bool
}.

(** What is kept for a token: its fingerprint [fp] and its expiry [exp]. *)
Record TokenInfo := { fp : string; exp : Z }.

(** A row of [tokens]. *)
Record TokenRow := { tr_fingerprint : string; tr_token : string; tr_expires_at : Z }.

(** A row of [votes]; [ip_address] is the column the token endpoint
    counts on, null in a row that was given none. *)
Record Vote := {
  v_fingerprint : string;
  v_contestant : string;
  v_ip_address : option string
}.

(** A row of [ip_change_logs]; [old_ip] is nullable. *)
Record IPChangeLog := { l_fingerprint : string; old_ip : option string; new_ip : string }.

Record DB := {
  vote_sessions : gmap string VoteSession;
  tokens : list TokenRow;
  votes : list Vote;
  ip_change_logs : list IPChangeLog
}.

(** The cache maps a key to its value and to the time at which the key
    lapses ([cache.set(key, value, ttl)] at time [now] lapses at
    [now + ttl]). *)
Record Server := {
  db : DB;
  cache : gmap string (TokenInfo * Z)
}.

Definition empty_db : DB :=
  {| vote_sessions := ∅; tokens := []; votes := []; ip_change_logs := [] |}.

Definition empty_server : Server := {| db := empty_db; cache := ∅ |}.

(** ** The repository object [db] of the pseudocode *)

Definition find_session (d : DB) (fingerprint : string) : option VoteSession :=
  vote_sessions d !! fingerprint.

Definition new_session : VoteSession :=
  {| votes_used := 0; ip_address := None; is_suspicious := false |}.

Definition create_session (d : DB) (fingerprint : string) : DB :=
  {| vote_sessions := <[fingerprint := new_session]> (vote_sessions d);
     tokens := tokens d; votes := votes d; ip_change_logs := ip_change_logs d |}.

(** [db.save_token]: the mapping fingerprint -> (token, expires_at) is
    persisted, one current row per fingerprint. *)
Definition save_token (d : DB) (fingerprint token : string) (expires_at : Z) : DB :=
  {| vote_sessions := vote_sessions d;
     tokens := {| tr_fingerprint := fingerprint; tr_token := token;
                  tr_expires_at := expires_at |}
               :: filter (λ r, tr_fingerprint r ≠ fingerprint) (tokens d);
     votes := votes d; ip_change_logs := ip_change_logs d |}.

Fixpoint find_row (token : string) (rows : list TokenRow) : option TokenRow :=
  match rows with
  | [] => None
  | r :: rows' => if bool_decide (tr_token r = token) then Some r else find_row token rows'
  end.

Definition find_token (d : DB) (token : string) : option TokenInfo :=
  (λ r, {| fp := tr_fingerprint r; exp := tr_expires_at r |}) <$> find_row token (tokens d).

Definition has_voted (d : DB) (fingerprint contestant : string) : bool :=
  existsb (λ v, bool_decide (v_fingerprint v = fingerprint)
                && bool_decide (v_contestant v = contestant)) (votes d).

Definition total_votes (d : DB) (fingerprint : string) : nat :=
  length (filter (λ v, v_fingerprint v = fingerprint) (votes d)).

Definition insert_row (d : DB) (v : Vote) : DB :=
  {| vote_sessions := vote_sessions d; tokens := tokens d;
     votes := votes d ++ [v];
     ip_change_logs := ip_change_logs d |}.

(** [db.insert_vote(fingerprint, contestant)]: the row is given no
    address. *)
Definition insert_vote (d : DB) (fingerprint contestant : string) : DB :=
  insert_row d {| v_fingerprint := fingerprint; v_contestant := contestant;
                  v_ip_address := None |}.

Definition bump (s : VoteSession) : VoteSession :=
  {| votes_used := S (votes_used s); ip_address := ip_address s;
     is_suspicious := is_suspicious s |}.

Definition increment_votes_used (d : DB) (fingerprint : string) : DB :=
  {| vote_sessions := alter bump fingerprint (vote_sessions d);
     tokens := tokens d; votes := votes d; ip_change_logs := ip_change_logs d |}.

(** ** The cache *)

Definition cache_set (c : gmap string (TokenInfo * Z)) (now : Z)
    (key : string) (value : TokenInfo) (ttl : Z) : gmap string (TokenInfo * Z) :=
  <[key := (value, now + ttl)]> c.

Definition cache_get (c : gmap string (TokenInfo * Z)) (now : Z)
    (key : string) : option TokenInfo :=
  match c !! key with
  | Some (value, lapses) => if bool_decide (now < lapses) then Some value else None
  | None => None
  end.

Definition tok_key (token : string) : string := "tok:" ++ token.

(** ** Readings of a request *)

Record Env := {
  now_utc : Z;                         (* now_utc(), in seconds *)
  token_hex : string;                  (* what secrets.token_hex(16) draws *)
  too_many : string → string → bool    (* limiter.too_many(ip=, fp=) *)
}.

(** ** /token *)

Record TokenReply := { token : string; fingerprint : string; expires_at : Z }.

Section Endpoints.

(** [sha256]: the hexadecimal SHA-256 digest of a string, from hashlib. *)
Variable sha256 : string → string.

Definition get_token (st : Server) (e : Env) (visitor_id local_id ip ua : string)
    : TokenReply * Server :=
  let fingerprint := sha256 (visitor_id ++ local_id) in
  let d1 := match find_session (db st) fingerprint with
            | Some _ => db st
            | None => create_session (db st) fingerprint
            end in
  let token := token_hex e in
  let expires_at := now_utc e + 900 in
  let d2 := save_token d1 fingerprint token expires_at in
  let c2 := cache_set (cache st) (now_utc e) (tok_key token)
              {| fp := fingerprint; exp := expires_at |} 900 in
  ({| token := token; fingerprint := fingerprint; expires_at := expires_at |},
   {| db := d2; cache := c2 |}).

End Endpoints.

(** ** /vote *)

Inductive Outcome :=
  | Recorded (message : string)
  | InvalidToken          (* the assertion on the token fails *)
  | HTTP429
  | Duplicate
  | LimitReached.

(** [t = cache.get(key of token) or db.find_token(token)] *)
Definition token_record (st : Server) (now : Z) (token : string) : option TokenInfo :=
  match cache_get (cache st) now (tok_key token) with
  | Some t => Some t
  | None => find_token (db st) token
  end.

(** [t and t.exp > now_utc() and t.fp == fingerprint] *)
Definition validate_token (st : Server) (now : Z) (token fingerprint : string) : bool :=
  match token_record st now token with
  | Some t => bool_decide (now < exp t) && bool_decide (fp t = fingerprint)
  | None => false
  end.

(** The checks of [post_vote], in the order of the pseudocode; [None] when
    all of them pass. *)
Definition rejection (st : Server) (e : Env) (contestant fingerprint token ip : string)
    : option Outcome :=
  if negb (validate_token st (now_utc e) token fingerprint) then Some InvalidToken
  else if too_many e ip fingerprint then Some HTTP429
  else if has_voted (db st) fingerprint contestant then Some Duplicate
  else if bool_decide (3 ≤ total_votes (db st) fingerprint)%nat then Some LimitReached
  else None.

Definition record_vote (st : Server) (contestant fingerprint : string) : Server :=
  {| db := increment_votes_used (insert_vote (db st) fingerprint contestant) fingerprint;
     cache := cache st |}.

Definition post_vote (st : Server) (e : Env) (contestant fingerprint token ip : string)
    : Outcome * Server :=
  match rejection st e contestant fingerprint token ip with
  | Some err => (err, st)
  | None => (Recorded ("Vote recorded for " ++ contestant ++ "!"),
             record_vote st contestant fingerprint)
  end.

(** ** Fragments of backend/main.py *)

Section Fingerprint.

(** The hexadecimal SHA-256 digest of the UTF-8 encoding of a string:
    [hashlib.sha256(s.encode()).hexdigest()]. *)
Variable sha256 : string → string.

Definition compute_fingerprint (visitor_id local_id : string) : string :=
  sha256 visitor_id.

End Fingerprint.

(** [db.query(Vote).filter(Vote.ip_address == ip).count()] *)
Definition votes_from_ip (d : DB) (ip : string) : nat :=
  length (filter (λ v, v_ip_address v = Some ip) (votes d)).

Record TokenResponse := {
  r_token : string;
  r_fingerprint : string;
  r_expires_at : Z;
  r_votes_used : nat;
  r_votes_used_from_ip : nat
}.

(** The response of the token endpoint, for the loaded [session]. *)
Definition token_response (d : DB) (session : VoteSession) (ip : string)
    (token fingerprint : string) (expires_at : Z) : TokenResponse :=
  let votes_from_ip := votes_from_ip d ip in
  {| r_token := token; r_fingerprint := fingerprint; r_expires_at := expires_at;
     r_votes_used := votes_used session; r_votes_used_from_ip := votes_from_ip |}.

(** [db.query(IPChangeLog).filter(IPChangeLog.fingerprint == fingerprint).count()] *)
Definition ip_changes (d : DB) (fingerprint : string) : nat :=
  length (filter (λ l, l_fingerprint l = fingerprint) (ip_change_logs d)).

Definition flag (s : VoteSession) : VoteSession :=
  {| votes_used := votes_used s; ip_address := ip_address s; is_suspicious := true |}.

Definition mark_suspicious (d : DB) (fingerprint : string) : DB :=
  {| vote_sessions := alter flag fingerprint (vote_sessions d);
     tokens := tokens d; votes := votes d; ip_change_logs := ip_change_logs d |}.

Definition add_ip_change_log (d : DB) (fingerprint : string) (old : option string)
    (new : string) : DB :=
  {| vote_sessions := vote_sessions d; tokens := tokens d; votes := votes d;
     ip_change_logs := ip_change_logs d ++
       [{| l_fingerprint := fingerprint; old_ip := old; new_ip := new |}] |}.

Inductive Verdict := Continue | HTTP403.

(** A string is truthy in Python when it is not empty. *)
Definition truthy (s : option string) : bool :=
  match s with
  | Some x => negb (bool_decide (x = EmptyString))
  | None => false
  end.

(** Step 4.3 of the vote endpoint, run with the session row of
    [fingerprint] loaded (nothing is done here when there is none). *)
Definition detect_ip_change (cfg : Settings) (d : DB) (fingerprint ip : string)
    : Verdict * DB :=
  match find_session d fingerprint with
  | None => (Continue, d)
  | Some session =>
      if truthy (ip_address session) && negb (bool_decide (ip_address session = Some ip))
      then
        let ip_changes := ip_changes d fingerprint in
        if bool_decide (MAX_IP_CHANGES_ALLOWED cfg ≤ ip_changes)%nat
        then (HTTP403, mark_suspicious d fingerprint)
        else (Continue, add_ip_change_log d fingerprint (ip_address session) ip)
      else (Continue, d)
  end.

(** ** The per-address ceiling *)




(** ** Runs of the server *)

Definition VoteHandler : Type :=
  Server → Env → string → string → string → string → Outcome * Server.

Section Runs.

Variable sha256 : string → string.

(** The states a server gets to from the empty one by token and vote
    requests, the votes handled by [vote]. *)
Inductive reachable (vote : VoteHandler) : Server → Prop :=
  | reach_empty : reachable vote empty_server
  | reach_token st e visitor_id local_id ip ua :
      reachable vote st →
      reachable vote (get_token sha256 st e visitor_id local_id ip ua).2
  | reach_vote st e contestant fingerprint token ip :
      reachable vote st →
      reachable vote (vote st e contestant fingerprint token ip).2.

Definition with_db (st : Server) (d : DB) : Server := {| db := d; cache := cache st |}.

(** One operation of the core on the stored state. *)
Inductive step : Server → Server → Prop :=
  | step_token st e visitor_id local_id ip ua :
      step st (get_token sha256 st e visitor_id local_id ip ua).2
  | step_vote st e contestant fingerprint token ip :
      step st (post_vote st e contestant fingerprint token ip).2
  | step_ip cfg st fingerprint ip :
      step st (with_db st (detect_ip_change cfg (db st) fingerprint ip).2).

End Runs.

(** ** The client *)

Module Client.

(** The object kept in localStorage under TOKEN_STORAGE_KEY.  A field that
    an object read back may lack is an [option]. *)
Record SessionData := {
  s_token : option string;
  s_fingerprint : option string;
  s_expires_at : option string;
  s_votes_used : Z;
  s_votes_used_from_ip : Z;
  s_is_suspicious : bool
}.

(** The body of the answer to GET /token. *)
Record TokenData := {
  td_token : option string;
  td_fingerprint : option string;
  td_expires_at : option string;
  td_votes_used : option Z;
  td_votes_used_from_ip : option Z;
  td_is_suspicious : option bool
}.

(** What [fetchToken] gets: it throws when the request fails. *)
Inductive Fetched :=
  | FetchFailed (detail : string)
  | FetchOk (data : TokenData).

Inductive Completion (A : Type) :=
  | Returned (a : A)
  | Thrown (message : string).
Arguments Returned {A} a.
Arguments Thrown {A} message.

(** localStorage, as far as this service uses it: the session stored, if
    any (JSON.stringify followed by JSON.parse gives the object back). *)
Definition Storage : Type := option SessionData.

Definition getSession (store : Storage) : option SessionData := store.

(** [setSession]: [written] tells whether [localStorage.setItem] goes
    through; when it throws, the error is caught and logged and the storage
    is what it was. *)
Definition setSession (store : Storage) (sessionData : SessionData) (written : bool)
    : Storage :=
  if written then Some sessionData else store.

Definition clearSession (store : Storage) : Storage := None.

(** [x || 0] on a number that may be undefined, and on a number. *)
Definition or_zero (x : option Z) : Z :=
  match x with
  | Some v => if bool_decide (v = 0) then 0 else v
  | None => 0
  end.

Definition or_false (x : option bool) : bool :=
  match x with
  | Some b => b
  | None => false
  end.

Section Clock.

(** [new Date(s).getTime()], in milliseconds; [None] for NaN, the time of
    an invalid date. *)
Variable getTime : string → option Z.

Definition isTokenExpired (now : Z) (expiresAt : option string) : bool :=
  match expiresAt with
  | None => true
  | Some s =>
      if bool_decide (s = EmptyString) then true
      else match getTime s with
           | Some expiryTime => bool_decide (expiryTime - 30000 ≤ now)
           | None => false
           end
  end.

Definition session_of (tokenData : TokenData) : SessionData :=
  {| s_token := td_token tokenData;
     s_fingerprint := td_fingerprint tokenData;
     s_expires_at := td_expires_at tokenData;
     s_votes_used := or_zero (td_votes_used tokenData);
     s_votes_used_from_ip := or_zero (td_votes_used_from_ip tokenData);
     s_is_suspicious := or_false (td_is_suspicious tokenData) |}.

Definition initializeToken (store : Storage) (fetched : Fetched) (written : bool)
    : Completion SessionData * Storage :=
  match fetched with
  | FetchFailed detail => (Thrown detail, store)
  | FetchOk tokenData =>
      let sessionData := session_of tokenData in
      (Returned sessionData, setSession store sessionData written)
  end.

Definition ensureValidToken (store : Storage) (now : Z) (fetched : Fetched) (written : bool)
    : Completion SessionData * Storage :=
  match getSession store with
  | None => initializeToken store fetched written
  | Some session =>
      if isTokenExpired now (s_expires_at session)
      then initializeToken store fetched written
      else (Returned session, store)
  end.

End Clock.

(** The votes remaining shown by [initializeSession]. *)
Definition votesRemaining (tokenData : SessionData) : Z :=
  let votesUsedDevice := or_zero (Some (s_votes_used tokenData)) in
  let votesUsedIP := or_zero (Some (s_votes_used_from_ip tokenData)) in
  let maxVotes := 3 in
  let actualVotesUsed := Z.max votesUsedDevice votesUsedIP in
  maxVotes - actualVotesUsed.

End Client.

(** The votes remaining as the specification words them:
    min(deviceCap - deviceVotes, ipCap - ipVotes). *)
Definition spec_votes_remaining (deviceCap ipCap deviceVotes ipVotes : Z) : Z :=
  Z.min (deviceCap - deviceVotes) (ipCap - ipVotes).

(** ** Vocabulary of the statements *)

(** The stored expiry is missing, or at most 30 seconds ahead of [now]. *)
Definition lapsing (getTime : string → option Z) (now : Z) (expiresAt : option string) : Prop :=
  expiresAt = None ∨ expiresAt = Some EmptyString
  ∨ ∃ s expiryTime, expiresAt = Some s ∧ getTime s = Some expiryTime
                    ∧ expiryTime - now ≤ 30000.

(** The token of the session of a fingerprint, as the specification
    words it: the token that the mapping fingerprint -> (token, expires_at)
    holds for the fingerprint. *)
Definition spec_session_token (d : DB) (fingerprint : string) : option string :=
  tr_token <$> head (filter (λ r, tr_fingerprint r = fingerprint) (tokens d)).

(** A clock that reads two dates, 10 and 20 seconds after its origin; a
    stored session that expires at the first, and the answer of a server
    whose token expires at the second. *)
Definition sample_getTime (s : string) : option Z :=
  if bool_decide (s = "2025-11-05T15:00:10Z") then Some 10000
  else if bool_decide (s = "2025-11-05T15:00:20Z") then Some 20000
  else None.

Definition stale_session : Client.SessionData :=
  {| Client.s_token := Some "aaaa"; Client.s_fingerprint := Some "fp1";
     Client.s_expires_at := Some "2025-11-05T15:00:10Z"; Client.s_votes_used := 0;
     Client.s_votes_used_from_ip := 0; Client.s_is_suspicious := false |}.

Definition short_lived : Client.TokenData :=
  {| Client.td_token := Some "bbbb"; Client.td_fingerprint := Some "fp1";
     Client.td_expires_at := Some "2025-11-05T15:00:20Z"; Client.td_votes_used := Some 0;
     Client.td_votes_used_from_ip := Some 0; Client.td_is_suspicious := Some false |}.

(** A digest to run the endpoints on concrete requests; what is shown
    with it does not depend on the digest chosen. *)
Definition sample_digest (s : string) : string := s.

(** Readings of a request when the limiter lets it through, and when it
    does not. *)
Definition quiet (now : Z) (draw : string) : Env :=
  {| now_utc := now; token_hex := draw; too_many := λ _ _, false |}.

Definition busy (now : Z) (draw : string) : Env :=
  {| now_utc := now; token_hex := draw; too_many := λ _ _, true |}.

(** The pairs (fingerprint, contestant) of the ledger. *)
Definition ballots (d : DB) : list (string * string) :=
  (λ v, (v_fingerprint v, v_contestant v)) <$> votes d.

(** A server on which one device got a token at time 0 and voted for
    smith at time 10. *)
Definition after_token : Server :=
  (get_token sample_digest empty_server (quiet 0 "aaaa") "visitor" "local" "1.1.1.1" "ua").2.

Definition after_vote : Server :=
  (post_vote after_token (quiet 10 "bbbb") "smith" "visitorlocal" "aaaa" "1.1.1.1").2.

(** The same device asks for a token at time 0 and again at time 10. *)
Definition first_call : TokenReply * Server :=
  get_token sample_digest empty_server (quiet 0 "aaaa") "visitor" "local" "1.1.1.1" "ua".

Definition second_call : TokenReply * Server :=
  get_token sample_digest first_call.2 (quiet 10 "bbbb") "visitor" "local" "1.1.1.1" "ua".

(** Three votes of one device from one address, then a second device
    at that address getting its token; the votes are handled by [vote]. *)
Definition three_votes (vote : VoteHandler) : Server :=
  let s1 := (vote after_token (quiet 10 "bbbb") "smith" "visitorlocal" "aaaa" "1.1.1.1").2 in
  let s2 := (vote s1 (quiet 20 "bbbb") "jones" "visitorlocal" "aaaa" "1.1.1.1").2 in
  (vote s2 (quiet 30 "bbbb") "williams" "visitorlocal" "aaaa" "1.1.1.1").2.

Definition second_device (vote : VoteHandler) : Server :=
  (get_token sample_digest (three_votes vote) (quiet 40 "dddd")
     "other" "local" "1.1.1.1" "ua").2.


(** The state after a row is added to the ledger and the count of its
    fingerprint is raised. *)
Definition record_row (st : Server) (v : Vote) : Server :=
  {| db := increment_votes_used (insert_row (db st) v) (v_fingerprint v);
     cache := cache st |}.

(** A handler of votes that either leaves the state alone or, the checks
    of [post_vote] passed, records the vote, with an address or without. *)
Definition guarded (vote : VoteHandler) : Prop :=
  ∀ st e contestant fingerprint token ip,
    (vote st e contestant fingerprint token ip).2 = st
    ∨ (rejection st e contestant fingerprint token ip = None
       ∧ ∃ address,
           (vote st e contestant fingerprint token ip).2
           = record_row st {| v_fingerprint := fingerprint; v_contestant := contestant;
                              v_ip_address := address |}).

(** The session of the fingerprint is flagged. *)
Definition flagged (d : DB) (fingerprint : string) : Prop :=
  ∃ session, find_session d fingerprint = Some session ∧ is_suspicious session = true.

(** A database with one session last seen at [ip], and the log of the
    moves that led there. *)
Definition seen_at (ip : string) (logs : list IPChangeLog) (suspicious : bool) : DB :=
  {| vote_sessions :=
       {[ "fp1" := {| votes_used := 0; ip_address := Some ip;
                      is_suspicious := suspicious |} ]};
     tokens := []; votes := []; ip_change_logs := logs |}.

Definition home_to_work : IPChangeLog :=
  {| l_fingerprint := "fp1"; old_ip := Some "1.1.1.1"; new_ip := "2.2.2.2" |}.

(** ** Vocabulary of the further properties *)

(** Every token record kept by the server, in the cache or in [tokens],
    names a fingerprint that has a session. *)
Definition tokens_have_sessions (st : Server) : Prop :=
  (∀ key t lapses, cache st !! key = Some (t, lapses)
     → is_Some (find_session (db st) (fp t)))
  ∧ (∀ r, r ∈ tokens (db st) → is_Some (find_session (db st) (tr_fingerprint r))).

(** The count of each session is the number of votes of its fingerprint
    in the ledger, and a fingerprint without a session has no vote. *)
Definition counts_match (d : DB) : Prop :=
  ∀ fingerprint,
    match find_session d fingerprint with
    | Some session => votes_used session = total_votes d fingerprint
    | None => total_votes d fingerprint = 0%nat
    end.

(** A run of address checks, one (fingerprint, address) per touch. *)
Fixpoint touches (cfg : Settings) (d : DB) (reqs : list (string * string)) : DB :=
  match reqs with
  | [] => d
  | (fingerprint, ip) :: reqs' => touches cfg (detect_ip_change cfg d fingerprint ip).2 reqs'
  end.

(** ** The device identifiers of the client
    (frontend/src/services/fingerprintService.js) *)

Module Device.

(** What the promise of [FingerprintJS.load()] settles to: the agent, or a
    rejection. *)
Inductive Loaded :=
  | Agent
  | LoadFailed (message : string).

(** The fields of the service; [fpPromise] is null until [initialize]. *)
Record FingerprintService := {
  fpPromise : option Loaded;
  visitorId : option string;
  localId : option string
}.

(** The service as its constructor leaves it. *)
Definition created : FingerprintService :=
  {| fpPromise := None; visitorId := None; localId := None |}.

(** The browser as the service uses it: the item of localStorage under
    LOCAL_ID_KEY, and the number of calls of [FingerprintJS.load()]. *)
Record Browser := {
  local_id_item : option string;
  loads : nat
}.

(** What a call reads from outside: how a load settles, what [fp.get()]
    gives as [visitorId] or throws, and what [uuidv4()] draws. *)
Record Readings := {
  load : Loaded;
  get : Client.Completion string;
  uuidv4 : string
}.

Definition initialize (svc : FingerprintService) (b : Browser) (r : Readings)
    : FingerprintService * Browser :=
  match fpPromise svc with
  | Some _ => (svc, b)
  | None =>
      ({| fpPromise := Some (load r); visitorId := visitorId svc; localId := localId svc |},
       {| local_id_item := local_id_item b; loads := S (loads b) |})
  end.

Definition setItem (b : Browser) (value : string) : Browser :=
  {| local_id_item := Some value; loads := loads b |}.

Definition getLocalId (svc : FingerprintService) (b : Browser) (r : Readings)
    : string * FingerprintService * Browser :=
  if truthy (localId svc) then (default EmptyString (localId svc), svc, b)
  else
    let stored := local_id_item b in
    let '(localId, b') :=
      if truthy stored then (default EmptyString stored, b)
      else (uuidv4 r, setItem b (uuidv4 r)) in
    (localId,
     {| fpPromise := fpPromise svc; visitorId := visitorId svc; localId := Some localId |},
     b').

Definition getVisitorId (svc : FingerprintService) (b : Browser) (r : Readings)
    : Client.Completion string * FingerprintService * Browser :=
  if truthy (visitorId svc) then (Client.Returned (default EmptyString (visitorId svc)), svc, b)
  else
    let '(svc1, b1) := initialize svc b r in
    match default (load r) (fpPromise svc1) with
    | LoadFailed message => (Client.Thrown message, svc1, b1)
    | Agent =>
        match get r with
        | Client.Thrown message => (Client.Thrown message, svc1, b1)
        | Client.Returned id =>
            (Client.Returned id,
             {| fpPromise := fpPromise svc1; visitorId := Some id; localId := localId svc1 |},
             b1)
        end
    end.

Record Identifiers := { id_visitorId : string; id_localId : string }.

Definition getIdentifiers (svc : FingerprintService) (b : Browser) (r : Readings)
    : Client.Completion Identifiers * FingerprintService * Browser :=
  match getVisitorId svc b r with
  | (Client.Thrown message, svc1, b1) => (Client.Thrown message, svc1, b1)
  | (Client.Returned visitorId, svc1, b1) =>
      let '(localId, svc2, b2) := getLocalId svc1 b1 r in
      (Client.Returned {| id_visitorId := visitorId; id_localId := localId |}, svc2, b2)
  end.

(** Calls of [getVisitorId] one after the other; the answers, oldest
    first, and the service and the browser after the last. *)
Fixpoint visits (svc : FingerprintService) (b : Browser) (rs : list Readings)
    : list (Client.Completion string) * FingerprintService * Browser :=
  match rs with
  | [] => ([], svc, b)
  | r :: rs' =>
      let '(answer, svc1, b1) := getVisitorId svc b r in
      let '(answers, svc2, b2) := visits svc1 b1 rs' in
      (answer :: answers, svc2, b2)
  end.

End Device.

(** ** The page (the App component) and its requests
    (frontend/src/services/voteService.js, [fetchToken] of tokenService.js) *)

Module Page.

(** The body of an answer, read as an object: the fields the client
    reads, each absent ([None]) or of the type the backend gives it. *)
Record Obj := {
  detail : option string;
  o_token : option string;
  o_fingerprint : option string;
  o_expires_at : option string;
  o_votes_used : option Z;
  o_votes_used_from_ip : option Z;
  o_is_suspicious : option bool;
  site_key : option string;
  success : option bool;
  o_message : option string;
  votes_remaining : option Z;
  requires_verification : option bool
}.

(** What [response.json()] gives: the object, or the error it throws. *)
Inductive Body :=
  | Json (obj : Obj)
  | NotJson (message : string).

(** What [fetch] gives: a response with its [ok] and its body, or the
    error it rejects with. *)
Inductive Reply :=
  | Replied (ok : bool) (body : Body)
  | Unreachable (message : string).

Inductive Request :=
  | GetToken (visitorId localId : string)
  | GetSiteKey
  | PostVote (X_Vote_Token : option string) (contestant : string)
      (fingerprint : option string) (recaptcha_token : string).

(** [x || fallback] on a string that may be undefined. *)
Definition or_else (x : option string) (fallback : string) : string :=
  if truthy x then default EmptyString x else fallback.

Definition tokenData_of (o : Obj) : Client.TokenData :=
  {| Client.td_token := o_token o;
     Client.td_fingerprint := o_fingerprint o;
     Client.td_expires_at := o_expires_at o;
     Client.td_votes_used := o_votes_used o;
     Client.td_votes_used_from_ip := o_votes_used_from_ip o;
     Client.td_is_suspicious := o_is_suspicious o |}.

(** [fetchToken], from the answer to GET /token on. *)
Definition fetchToken (reply : Reply) : Client.Fetched :=
  match reply with
  | Unreachable message => Client.FetchFailed message
  | Replied false body =>
      let error := match body with
                   | Json o => detail o
                   | NotJson _ => Some "Token fetch failed"
                   end in
      Client.FetchFailed (or_else error "Failed to fetch token")
  | Replied true (NotJson message) => Client.FetchFailed message
  | Replied true (Json data) => Client.FetchOk (tokenData_of data)
  end.

(** The request of [submitVote] and what it makes of the answer. *)
Definition vote_request (contestant : string) (fingerprint token : option string)
    (recaptchaToken : option string) : Request :=
  PostVote token contestant fingerprint (or_else recaptchaToken EmptyString).

Definition vote_result (reply : Reply) : Client.Completion Obj :=
  match reply with
  | Unreachable message => Client.Thrown message
  | Replied _ (NotJson message) => Client.Thrown message
  | Replied false (Json data) => Client.Thrown (or_else (detail data) "Failed to submit vote")
  | Replied true (Json data) => Client.Returned data
  end.

(** The state of the component. *)
Record UI := {
  contestant : string;
  message : option string;
  messageType : string;
  loading : bool;
  submitting : bool;
  votesRemaining : Z;
  identifiers : option Device.Identifiers;
  isSuspicious : bool;
  recaptchaSiteKey : option string;
  recaptchaToken : option string;
  recaptchaWidgetId : option Z;
  recaptchaLoading : bool
}.

(** The state at the first render. *)
Definition mounted : UI :=
  {| contestant := EmptyString; message := None; messageType := EmptyString;
     loading := true; submitting := false; votesRemaining := 3; identifiers := None;
     isSuspicious := false; recaptchaSiteKey := None; recaptchaToken := None;
     recaptchaWidgetId := None; recaptchaLoading := false |}.

Definition setContestant (v : string) (u : UI) : UI :=
  {| contestant := v; message := message u; messageType := messageType u;
     loading := loading u; submitting := submitting u; votesRemaining := votesRemaining u;
     identifiers := identifiers u; isSuspicious := isSuspicious u;
     recaptchaSiteKey := recaptchaSiteKey u; recaptchaToken := recaptchaToken u;
     recaptchaWidgetId := recaptchaWidgetId u; recaptchaLoading := recaptchaLoading u |}.

Definition setMessage (v : option string) (u : UI) : UI :=
  {| contestant := contestant u; message := v; messageType := messageType u;
     loading := loading u; submitting := submitting u; votesRemaining := votesRemaining u;
     identifiers := identifiers u; isSuspicious := isSuspicious u;
     recaptchaSiteKey := recaptchaSiteKey u; recaptchaToken := recaptchaToken u;
     recaptchaWidgetId := recaptchaWidgetId u; recaptchaLoading := recaptchaLoading u |}.

Definition setMessageType (v : string) (u : UI) : UI :=
  {| contestant := contestant u; message := message u; messageType := v;
     loading := loading u; submitting := submitting u; votesRemaining := votesRemaining u;
     identifiers := identifiers u; isSuspicious := isSuspicious u;
     recaptchaSiteKey := recaptchaSiteKey u; recaptchaToken := recaptchaToken u;
     recaptchaWidgetId := recaptchaWidgetId u; recaptchaLoading := recaptchaLoading u |}.

Definition setLoading (v : bool) (u : UI) : UI :=
  {| contestant := contestant u; message := message u; messageType := messageType u;
     loading := v; submitting := submitting u; votesRemaining := votesRemaining u;
     identifiers := identifiers u; isSuspicious := isSuspicious u;
     recaptchaSiteKey := recaptchaSiteKey u; recaptchaToken := recaptchaToken u;
     recaptchaWidgetId := recaptchaWidgetId u; recaptchaLoading := recaptchaLoading u |}.

Definition setSubmitting (v : bool) (u : UI) : UI :=
  {| contestant := contestant u; message := message u; messageType := messageType u;
     loading := loading u; submitting := v; votesRemaining := votesRemaining u;
     identifiers := identifiers u; isSuspicious := isSuspicious u;
     recaptchaSiteKey := recaptchaSiteKey u; recaptchaToken := recaptchaToken u;
     recaptchaWidgetId := recaptchaWidgetId u; recaptchaLoading := recaptchaLoading u |}.

Definition setVotesRemaining (v : Z) (u : UI) : UI :=
  {| contestant := contestant u; message := message u; messageType := messageType u;
     loading := loading u; submitting := submitting u; votesRemaining := v;
     identifiers := identifiers u; isSuspicious := isSuspicious u;
     recaptchaSiteKey := recaptchaSiteKey u; recaptchaToken := recaptchaToken u;
     recaptchaWidgetId := recaptchaWidgetId u; recaptchaLoading := recaptchaLoading u |}.

Definition setIdentifiers (v : option Device.Identifiers) (u : UI) : UI :=
  {| contestant := contestant u; message := message u; messageType := messageType u;
     loading := loading u; submitting := submitting u; votesRemaining := votesRemaining u;
     identifiers := v; isSuspicious := isSuspicious u;
     recaptchaSiteKey := recaptchaSiteKey u; recaptchaToken := recaptchaToken u;
     recaptchaWidgetId := recaptchaWidgetId u; recaptchaLoading := recaptchaLoading u |}.

Definition setIsSuspicious (v : bool) (u : UI) : UI :=
  {| contestant := contestant u; message := message u; messageType := messageType u;
     loading := loading u; submitting := submitting u; votesRemaining := votesRemaining u;
     identifiers := identifiers u; isSuspicious := v;
     recaptchaSiteKey := recaptchaSiteKey u; recaptchaToken := recaptchaToken u;
     recaptchaWidgetId := recaptchaWidgetId u; recaptchaLoading := recaptchaLoading u |}.

Definition setRecaptchaSiteKey (v : option string) (u : UI) : UI :=
  {| contestant := contestant u; message := message u; messageType := messageType u;
     loading := loading u; submitting := submitting u; votesRemaining := votesRemaining u;
     identifiers := identifiers u; isSuspicious := isSuspicious u;
     recaptchaSiteKey := v; recaptchaToken := recaptchaToken u;
     recaptchaWidgetId := recaptchaWidgetId u; recaptchaLoading := recaptchaLoading u |}.

Definition setRecaptchaToken (v : option string) (u : UI) : UI :=
  {| contestant := contestant u; message := message u; messageType := messageType u;
     loading := loading u; submitting := submitting u; votesRemaining := votesRemaining u;
     identifiers := identifiers u; isSuspicious := isSuspicious u;
     recaptchaSiteKey := recaptchaSiteKey u; recaptchaToken := v;
     recaptchaWidgetId := recaptchaWidgetId u; recaptchaLoading := recaptchaLoading u |}.

Definition setRecaptchaLoading (v : bool) (u : UI) : UI :=
  {| contestant := contestant u; message := message u; messageType := messageType u;
     loading := loading u; submitting := submitting u; votesRemaining := votesRemaining u;
     identifiers := identifiers u; isSuspicious := isSuspicious u;
     recaptchaSiteKey := recaptchaSiteKey u; recaptchaToken := recaptchaToken u;
     recaptchaWidgetId := recaptchaWidgetId u; recaptchaLoading := v |}.

(** [setMessage(text); setMessageType(kind)] *)
Definition report (kind text : string) (u : UI) : UI :=
  setMessageType kind (setMessage (Some text) u).

(** What lies outside the component: the session in localStorage, the
    requests sent so far (the latest last), the calls of
    [grecaptcha.reset] so far, and the fingerprint service with its
    browser. *)
Record World := {
  store : Client.Storage;
  sent : list Request;
  resets : list Z;
  service : Device.FingerprintService;
  browser : Device.Browser
}.

Definition with_store (w : World) (s : Client.Storage) : World :=
  {| store := s; sent := sent w; resets := resets w; service := service w;
     browser := browser w |}.

(** [s.includes(part)] *)
Fixpoint includes (part s : string) : bool :=
  String.prefix part s
  || match s with
     | EmptyString => false
     | String _ s' => includes part s'
     end.

Section Handlers.

(** The server: its answer to the latest of the requests sent so far. *)
Variable server : list Request → Reply.

(** Whether [localStorage.setItem] goes through when the session got
    with the latest of the requests sent so far is written; it throws,
    for one, when the quota is exceeded. *)
Variable setItem_ok : list Request → bool.

(** [Date.now()] while the handler runs, and [new Date(s).getTime()]. *)
Variable now : Z.
Variable getTime : string → option Z.

(** [s.trim()] *)
Variable trim : string → string.

(** Whether [window.grecaptcha] is there. *)
Variable grecaptcha : bool.

(** The message of the TypeError thrown on reading a property of null. *)
Variable null_read : string.

Definition fetch (request : Request) (w : World) : Reply * World :=
  let history := (sent w ++ [request])%list in
  (server history,
   {| store := store w; sent := history; resets := resets w; service := service w;
      browser := browser w |}).

(** [tokenService.initializeToken] and [tokenService.ensureValidToken],
    with the request they send. *)
Definition initializeToken (ids : Device.Identifiers) (w : World)
    : Client.Completion Client.SessionData * World :=
  let '(reply, w1) := fetch (GetToken (Device.id_visitorId ids) (Device.id_localId ids)) w in
  let '(answer, store1) :=
    Client.initializeToken (store w1) (fetchToken reply) (setItem_ok (sent w1)) in
  (answer, with_store w1 store1).

Definition ensureValidToken (ids : Device.Identifiers) (w : World)
    : Client.Completion Client.SessionData * World :=
  match Client.getSession (store w) with
  | None => initializeToken ids w
  | Some session =>
      if Client.isTokenExpired getTime now (Client.s_expires_at session)
      then initializeToken ids w
      else (Client.Returned session, w)
  end.

(** [voteService.submitVote] *)
Definition submitVote (contestant : string) (fingerprint token : option string)
    (recaptchaToken : option string) (w : World) : Client.Completion Obj * World :=
  let '(reply, w1) := fetch (vote_request contestant fingerprint token recaptchaToken) w in
  (vote_result reply, w1).

Definition loadRecaptchaSiteKey (u : UI) (w : World) : UI * World :=
  let u := setRecaptchaLoading true u in
  let '(reply, w1) := fetch GetSiteKey w in
  let u :=
    match reply with
    | Replied true (Json data) => setRecaptchaToken None (setRecaptchaSiteKey (site_key data) u)
    | _ => report "error" "Failed to load reCAPTCHA. Please refresh the page." u
    end in
  (setRecaptchaLoading false u, w1).

(** [if (recaptchaWidgetId !== null && window.grecaptcha)
       window.grecaptcha.reset(recaptchaWidgetId)] *)
Definition reset_widget (ui : UI) (w : World) : World :=
  match recaptchaWidgetId ui with
  | Some id =>
      if grecaptcha
      then {| store := store w; sent := sent w; resets := (resets w ++ [id])%list;
              service := service w; browser := browser w |}
      else w
  | None => w
  end.

(** [initializeSession]; [r] is what the fingerprint service reads. *)
Definition initializeSession (u : UI) (w : World) (r : Device.Readings) : UI * World :=
  let u := setLoading true u in
  let failed (message : string) (u : UI) : UI :=
    setLoading false (report "error" (or_else (Some message) "Failed to initialize session") u) in
  match Device.getIdentifiers (service w) (browser w) r with
  | (Client.Thrown message, svc, b) =>
      (failed message u,
       {| store := store w; sent := sent w; resets := resets w; service := svc;
          browser := b |})
  | (Client.Returned ids, svc, b) =>
      let w := {| store := store w; sent := sent w; resets := resets w; service := svc;
                  browser := b |} in
      let u := setIdentifiers (Some ids) u in
      match initializeToken ids w with
      | (Client.Thrown message, w1) => (failed message u, w1)
      | (Client.Returned tokenData, w1) =>
          let u := setVotesRemaining (Client.votesRemaining tokenData) u in
          let u := setIsSuspicious (Client.s_is_suspicious tokenData || false) u in
          let '(u, w2) :=
            if Client.s_is_suspicious tokenData then loadRecaptchaSiteKey u w1 else (u, w1) in
          (setLoading false u, w2)
      end
  end.

(** The body of the [try] of [handleSubmit]: the state set so far, the
    world, and the message of the error thrown, if any.  [ui] is the
    state of the render the handler belongs to, which is what it reads;
    [u] is the state as set so far. *)
Definition attempt (ui u : UI) (w : World) : option string * UI * World :=
  let u := setSubmitting true u in
  match identifiers ui with
  | None => (Some null_read, u, w)
  | Some ids =>
      match ensureValidToken ids w with
      | (Client.Thrown message, w1) => (Some message, u, w1)
      | (Client.Returned session, w1) =>
          let '(stop, u, w2) :=
            if Client.s_is_suspicious session then
              let u := setIsSuspicious true u in
              let '(u, w2) :=
                if negb (truthy (recaptchaSiteKey ui)) then loadRecaptchaSiteKey u w1
                else (u, w1) in
              if negb (truthy (recaptchaToken ui))
              then (true,
                    report "error" "Please complete the reCAPTCHA verification to continue." u,
                    w2)
              else (false, u, w2)
            else (false, u, w1) in
          if stop then (None, u, w2)
          else
            match submitVote (contestant ui) (Client.s_fingerprint session)
                    (Client.s_token session)
                    (if Client.s_is_suspicious session then recaptchaToken ui else None) w2 with
            | (Client.Thrown message, w3) => (Some message, u, w3)
            | (Client.Returned result, w3) =>
                if default false (success result) then
                  let u := setMessage (o_message result) u in
                  let u := setMessageType "success" u in
                  let u := setContestant EmptyString u in
                  let u := setRecaptchaToken None u in
                  let u := match votes_remaining result with
                           | Some remaining => setVotesRemaining remaining u
                           | None => u
                           end in
                  (None, u, if isSuspicious ui then reset_widget ui w3 else w3)
                else if default false (requires_verification result) then
                  (None,
                   report "warning"
                     (default "undefined" (o_message result) ++ " Please complete verification.") u,
                   w3)
                else (None, u, w3)
            end
      end
  end.

(** The [catch] of [handleSubmit], for an error with this message. *)
Definition recover (ui : UI) (message : string) (u : UI) (w : World) : UI * World :=
  if includes "CAPTCHA" message || includes "verification required" message then
    let u := report "error" message u in
    match identifiers ui with
    | None => (u, reset_widget ui w)
    | Some ids =>
        match initializeToken ids w with
        | (Client.Thrown _, w1) => (u, reset_widget ui w1)
        | (Client.Returned updatedSession, w1) =>
            if Client.s_is_suspicious updatedSession then
              let u := setIsSuspicious true u in
              let '(u, w2) :=
                if negb (truthy (recaptchaSiteKey ui)) then loadRecaptchaSiteKey u w1
                else (u, w1) in
              (report "warning"
                 "Security verification required. Please complete the reCAPTCHA challenge." u,
               w2)
            else (u, reset_widget ui w1)
        end
    end
  else if includes "expired" message || includes "Invalid token" message then
    match identifiers ui with
    | None => (report "error" "Session expired. Please refresh the page." u, w)
    | Some ids =>
        match initializeToken ids w with
        | (Client.Thrown _, w1) =>
            (report "error" "Session expired. Please refresh the page." u, w1)
        | (Client.Returned _, w1) =>
            (report "warning" "Session refreshed. Please try again." u, w1)
        end
    end
  else (report "error" (or_else (Some message) "Failed to submit vote") u, w).

Definition handleSubmit (ui : UI) (w : World) : UI * World :=
  let u := setMessageType EmptyString (setMessage None ui) in
  if negb (truthy (Some (trim (contestant ui)))) then
    (report "error" "Please enter a contestant last name" u, w)
  else
    let '(thrown, u, w1) := attempt ui u w in
    let '(u, w2) :=
      match thrown with
      | Some message => recover ui message u w1
      | None => (u, w1)
      end in
    (setSubmitting false u, w2).

End Handlers.

(** The votes posted among some requests. *)
Definition is_vote (request : Request) : bool :=
  match request with
  | PostVote _ _ _ _ => true
  | _ => false
  end.

End Page.

(** The requests [later] are [earlier] followed by [new]. *)
Definition sent_since (earlier later : Page.World) (new : list Page.Request) : Prop :=
  Page.sent later = (Page.sent earlier ++ new)%list.

(** None of the requests posts a vote. *)
Definition no_vote (requests : list Page.Request) : Prop :=
  Forall (λ request, Page.is_vote request = false) requests.

(** The fields of the component that no handler of a submission sets. *)
Definition same_fixed (before after : Page.UI) : Prop :=
  Page.loading after = Page.loading before
  ∧ Page.identifiers after = Page.identifiers before
  ∧ Page.recaptchaWidgetId after = Page.recaptchaWidgetId before.

(** A page on which a name is typed, its world with a stored session
    that expires at 1000000 ms, and a server that gives one answer. *)
Definition sample_ids : Device.Identifiers :=
  {| Device.id_visitorId := "v-1"; Device.id_localId := "u-1" |}.

Definition sample_session (suspicious : bool) : Client.SessionData :=
  {| Client.s_token := Some "aaaa"; Client.s_fingerprint := Some "fp1";
     Client.s_expires_at := Some "2025-11-05T15:00:00Z"; Client.s_votes_used := 0;
     Client.s_votes_used_from_ip := 0; Client.s_is_suspicious := suspicious |}.

Definition typing (name : string) : Page.UI :=
  Page.setIdentifiers (Some sample_ids)
    (Page.setLoading false (Page.setContestant name Page.mounted)).

Definition sample_world (suspicious : bool) : Page.World :=
  {| Page.store := Some (sample_session suspicious); Page.sent := []; Page.resets := [];
     Page.service := Device.created;
     Page.browser := {| Device.local_id_item := Some "u-1"; Device.loads := 1 |} |}.

Definition answering (reply : Page.Reply) : list Page.Request → Page.Reply :=
  λ _, reply.

(** A storage that takes every write, and one that takes none. *)
Definition storage_free : list Page.Request → bool := λ _, true.

Definition storage_full : list Page.Request → bool := λ _, false.

Definition sample_result (ok : option bool) (text : option string) (remaining : option Z)
    : Page.Obj :=
  {| Page.detail := text; Page.o_token := None; Page.o_fingerprint := None;
     Page.o_expires_at := None; Page.o_votes_used := None;
     Page.o_votes_used_from_ip := None; Page.o_is_suspicious := None;
     Page.site_key := None; Page.success := ok; Page.o_message := text;
     Page.votes_remaining := remaining; Page.requires_verification := None |}.

(** * Properties *)

(** ** Identity *)

(** C3.  The fingerprint is a function of the visitor id alone: computed
    twice from the same visitor id it is the same string, whatever the two
    local ids are. *)
Theorem compute_fingerprint_ignores_local_id :
  ∀ (sha256 : string → string) (visitor_id local_id1 local_id2 : string),
    compute_fingerprint sha256 visitor_id local_id1
    = compute_fingerprint sha256 visitor_id local_id2.
Proof. intros sha256 visitor_id local_id1 local_id2. unfold compute_fingerprint. reflexivity. Qed.

(** ** Votes remaining *)

Lemma or_zero_some (v : Z) : Client.or_zero (Some v) = v.
Proof. unfold Client.or_zero. case_bool_decide; congruence. Qed.

(** C9.  The votes remaining shown by the client, maxVotes minus the
    larger of the two counts, are the minimum of what is left under each
    ceiling when both ceilings are 3, the value of [maxVotes]. *)
Theorem votesRemaining_is_min :
  ∀ tokenData : Client.SessionData,
    Client.votesRemaining tokenData
    = spec_votes_remaining (Z.of_nat (MAX_VOTES_PER_DEVICE settings))
        (Z.of_nat (MAX_VOTES_PER_IP settings))
        (Client.s_votes_used tokenData) (Client.s_votes_used_from_ip tokenData).
Proof.
  intros tokenData. unfold Client.votesRemaining, spec_votes_remaining.
  rewrite !or_zero_some. simpl. lia.
Qed.

(** ** The token check *)

Lemma find_row_token (token : string) (rows : list TokenRow) (r : TokenRow) :
  find_row token rows = Some r → r ∈ rows ∧ tr_token r = token.
Proof.
  induction rows as [|r0 rows IH]; simpl; [discriminate|].
  case_bool_decide as Heq.
  - intros [= <-]. split; [left | exact Heq].
  - intros Hr. destruct (IH Hr) as [Hin Ht]. split; [right; exact Hin | exact Ht].
Qed.

(** A record found for a token is stored under that very token: in the
    cache at the key of the token, or in a row of [tokens] holding it. *)
Lemma token_record_stored (st : Server) (now : Z) (token : string) (t : TokenInfo) :
  token_record st now token = Some t →
  (∃ lapses, cache st !! tok_key token = Some (t, lapses) ∧ now < lapses)
  ∨ (∃ r, r ∈ tokens (db st) ∧ tr_token r = token
          ∧ fp t = tr_fingerprint r ∧ exp t = tr_expires_at r).
Proof.
  unfold token_record, cache_get, find_token.
  destruct (cache st !! tok_key token) as [[value lapses]|] eqn:Hc.
  - case_bool_decide as Hlt.
    + intros [= <-]. left. exists lapses. split; [reflexivity | exact Hlt].
    + destruct (find_row token (tokens (db st))) as [r|] eqn:Hr; simpl; [|discriminate].
      intros [= <-]. right. exists r. destruct (find_row_token _ _ _ Hr). auto.
  - destruct (find_row token (tokens (db st))) as [r|] eqn:Hr; simpl; [|discriminate].
    intros [= <-]. right. exists r. destruct (find_row_token _ _ _ Hr). auto.
Qed.

Lemma token_record_cases (st : Server) (now : Z) (token : string) :
  (∃ t lapses, cache st !! tok_key token = Some (t, lapses) ∧ now < lapses
               ∧ token_record st now token = Some t)
  ∨ ((∀ t lapses, cache st !! tok_key token = Some (t, lapses) → lapses ≤ now)
     ∧ token_record st now token
       = (λ r, {| fp := tr_fingerprint r; exp := tr_expires_at r |})
         <$> find_row token (tokens (db st))).
Proof.
  unfold token_record, cache_get, find_token.
  destruct (cache st !! tok_key token) as [[value lapses]|] eqn:Hc.
  - case_bool_decide as Hlt.
    + left. exists value, lapses. auto.
    + right. split; [|reflexivity]. intros t l [= <- <-]. lia.
  - right. split; [discriminate | reflexivity].
Qed.

(** C7, as amended.  The token check passes exactly when the record
    stored under the presented token is unexpired and bound to the
    fingerprint of the request, the record being the live cache entry at
    the key of the token or, without one, the row of [tokens] that holds
    the token; with no such record, an expired one or one of another
    fingerprint the check fails, and [post_vote] then rejects the request
    and leaves the state as it was.  The token need not be the one the
    session got last. *)
Theorem validate_token_by_stored_record :
  ∀ (st : Server) (now : Z) (token fingerprint : string),
    let cached := cache st !! tok_key token in
    let row := find_row token (tokens (db st)) in
    let no_live_entry := ∀ t lapses, cached = Some (t, lapses) → lapses ≤ now in
    (validate_token st now token fingerprint = true
     ↔ (∃ t lapses, cached = Some (t, lapses) ∧ now < lapses
                    ∧ now < exp t ∧ fp t = fingerprint)
       ∨ (no_live_entry
          ∧ ∃ r, row = Some r ∧ now < tr_expires_at r ∧ tr_fingerprint r = fingerprint))
    ∧ (no_live_entry → row = None → validate_token st now token fingerprint = false)
    ∧ (∀ t lapses, cached = Some (t, lapses) → now < lapses
       → exp t ≤ now ∨ fp t ≠ fingerprint
       → validate_token st now token fingerprint = false)
    ∧ (∀ r, no_live_entry → row = Some r
       → tr_expires_at r ≤ now ∨ tr_fingerprint r ≠ fingerprint
       → validate_token st now token fingerprint = false)
    ∧ (∀ e contestant ip, now_utc e = now
       → validate_token st now token fingerprint = false
       → post_vote st e contestant fingerprint token ip = (InvalidToken, st)).
Proof.
  intros st now token fingerprint. cbv zeta.
  assert (∀ t : TokenInfo,
            bool_decide (now < exp t) && bool_decide (fp t = fingerprint) = true
            ↔ now < exp t ∧ fp t = fingerprint) as Hcheck.
  { intros t. rewrite andb_true_iff, !bool_decide_eq_true. reflexivity. }
  assert (∀ t : TokenInfo, exp t ≤ now ∨ fp t ≠ fingerprint →
            bool_decide (now < exp t) && bool_decide (fp t = fingerprint) = false)
    as Hfail.
  { intros t [Hle|Hne]; apply andb_false_iff; [left | right];
      apply bool_decide_eq_false; [lia | exact Hne]. }
  unfold validate_token.
  destruct (token_record_cases st now token)
    as [(t & lapses & Hc & Hlive & ->)|[Hnone ->]].
  - split; [|split; [|split; [|split]]].
    + rewrite Hcheck. split.
      * intros [Hlt Hfp]. left. exists t, lapses. auto.
      * intros [(t' & lapses' & Hc' & _ & Hlt & Hfp)|[Hno _]].
        -- rewrite Hc in Hc'. injection Hc' as <- <-. auto.
        -- specialize (Hno t lapses Hc). lia.
    + intros Hno. specialize (Hno t lapses Hc). lia.
    + intros t' lapses' Hc' _ Hbad. rewrite Hc in Hc'. injection Hc' as <- <-.
      apply Hfail, Hbad.
    + intros r Hno. specialize (Hno t lapses Hc). lia.
    + intros e contestant ip <- Hv. unfold post_vote, rejection, validate_token.
      destruct (token_record_cases st (now_utc e) token)
        as [(t' & lapses' & Hc' & _ & ->)|[Hno _]].
      * rewrite Hc in Hc'. injection Hc' as <- <-. rewrite Hv. reflexivity.
      * specialize (Hno t lapses Hc). lia.
  - destruct (find_row token (tokens (db st))) as [r|] eqn:Hr;
      cbn [fmap option_fmap option_map].
    + split; [|split; [|split; [|split]]].
      * rewrite Hcheck. cbn [fp exp]. split.
        -- intros [Hlt Hfp]. right. split; [exact Hnone|]. exists r. auto.
        -- intros [(t & lapses & Hc & Hlive & _)|(_ & r' & [= <-] & Hlt & Hfp)].
           ++ specialize (Hnone t lapses Hc). lia.
           ++ auto.
      * discriminate.
      * intros t lapses Hc Hlive. specialize (Hnone t lapses Hc). lia.
      * intros r' _ [= <-] Hbad.
        apply (Hfail {| fp := tr_fingerprint r; exp := tr_expires_at r |}). exact Hbad.
      * intros e contestant ip <- Hv. unfold post_vote, rejection, validate_token.
        destruct (token_record_cases st (now_utc e) token)
          as [(t' & lapses' & Hc' & Hlive & _)|[_ ->]].
        -- specialize (Hnone t' lapses' Hc'). lia.
        -- rewrite Hr. cbn [fmap option_fmap option_map]. rewrite Hv. reflexivity.
    + split; [|split; [|split; [|split]]].
      * split; [discriminate|].
        intros [(t & lapses & Hc & Hlive & _)|(_ & r' & [=] & _)].
        specialize (Hnone t lapses Hc). lia.
      * reflexivity.
      * reflexivity.
      * discriminate.
      * intros e contestant ip <- _. unfold post_vote, rejection, validate_token.
        destruct (token_record_cases st (now_utc e) token)
          as [(t' & lapses' & Hc' & Hlive & _)|[_ ->]].
        -- specialize (Hnone t' lapses' Hc'). lia.
        -- rewrite Hr. reflexivity.
Qed.

(** A token stays valid after the device is given another one: called
    twice, the token endpoint leaves the cache entry of the first token
    in place, and the first token passes the check until it expires. *)
Lemma replaced_token_passes (sha256 : string → string) (st : Server) (e1 e2 : Env)
    (visitor_id local_id ip ua : string) (now : Z) :
  let first := get_token sha256 st e1 visitor_id local_id ip ua in
  let second := get_token sha256 first.2 e2 visitor_id local_id ip ua in
  token first.1 ≠ token second.1 →
  now < expires_at first.1 →
  validate_token second.2 now (token first.1) (fingerprint first.1) = true.
Proof.
  cbv zeta. intros Hne Hlive.
  unfold validate_token, token_record, cache_get, get_token, cache_set in *.
  simpl in *.
  rewrite lookup_insert_ne
    by (unfold tok_key; intros H; cbv [String.app] in H; injection H as H; congruence).
  rewrite lookup_insert_eq.
  rewrite bool_decide_eq_true_2 by exact Hlive. simpl.
  rewrite bool_decide_eq_true_2 by exact Hlive.
  rewrite bool_decide_eq_true_2 by reflexivity. reflexivity.
Qed.

(** C7, as stated, fails: after the second call of the token endpoint the
    token of the session is bbbb and the only row of [tokens] holds it,
    yet the check passes for aaaa, the token of the first call, and a vote
    sent with aaaa is recorded. *)
Lemma replaced_token_is_accepted :
  spec_session_token (db second_call.2) "visitorlocal" = Some "bbbb"
  ∧ tokens (db second_call.2)
    = [{| tr_fingerprint := "visitorlocal"; tr_token := "bbbb"; tr_expires_at := 910 |}]
  ∧ "aaaa" ≠ "bbbb"
  ∧ validate_token second_call.2 20 "aaaa" "visitorlocal" = true
  ∧ (post_vote second_call.2 (quiet 20 "cccc") "smith" "visitorlocal" "aaaa" "1.1.1.1").1
    = Recorded "Vote recorded for smith!"
  ∧ votes (db (post_vote second_call.2 (quiet 20 "cccc")
                 "smith" "visitorlocal" "aaaa" "1.1.1.1").2)
    = [{| v_fingerprint := "visitorlocal"; v_contestant := "smith";
          v_ip_address := None |}].
Proof.
  split; [vm_compute; reflexivity|].
  split; [vm_compute; reflexivity|].
  split; [discriminate|].
  split; [vm_compute; reflexivity|].
  split; vm_compute; reflexivity.
Qed.

(** ** The expiry buffer of the client *)

Lemma isTokenExpired_lapsing (getTime : string → option Z) (now : Z)
    (expiresAt : option string) :
  Client.isTokenExpired getTime now expiresAt = true ↔ lapsing getTime now expiresAt.
Proof.
  unfold Client.isTokenExpired, lapsing. split.
  - destruct expiresAt as [s|]; [|auto].
    case_bool_decide as He; [subst; auto|].
    destruct (getTime s) as [t|] eqn:Ht; [|discriminate].
    intros H. apply bool_decide_eq_true in H. right. right. exists s, t.
    repeat split; [exact Ht | lia].
  - intros [->|[->|(s & t & -> & Ht & Hle)]]; [reflexivity..|].
    case_bool_decide; [reflexivity|]. rewrite Ht. apply bool_decide_eq_true. lia.
Qed.

(** C10, as amended.  For a stored session: when its expiry is missing
    or at most 30 seconds ahead, [ensureValidToken] does what
    [initializeToken] does and never returns the stored session as such:
    with an answer from the server it returns the session made of the
    answer, whatever its expiry, and writes it over the stored one, unless
    the write fails, and then the storage keeps the old one; without an
    answer it throws and the storage is as it was.  Otherwise it returns
    the stored session and leaves the storage alone.  A session returned
    has more than 30 seconds left when it is the stored one, and when the
    expiry the server gave is more than 30 seconds ahead. *)
Theorem ensureValidToken_refreshes :
  ∀ (getTime : string → option Z) (session : Client.SessionData) (now : Z)
    (fetched : Client.Fetched) (written : bool),
    let store := Some session in
    let answer := Client.ensureValidToken getTime store now fetched written in
    (lapsing getTime now (Client.s_expires_at session)
     → answer = Client.initializeToken store fetched written
       ∧ (∀ tokenData, fetched = Client.FetchOk tokenData
          → answer.1 = Client.Returned (Client.session_of tokenData)
            ∧ answer.2 = if written then Some (Client.session_of tokenData) else store)
       ∧ (∀ detail, fetched = Client.FetchFailed detail
          → answer = (Client.Thrown detail, store)))
    ∧ (¬ lapsing getTime now (Client.s_expires_at session)
       → answer = (Client.Returned session, store))
    ∧ (∀ returned, answer.1 = Client.Returned returned
       → (returned = session ∧ ¬ lapsing getTime now (Client.s_expires_at session))
         ∨ (∃ tokenData, fetched = Client.FetchOk tokenData
                         ∧ returned = Client.session_of tokenData
                         ∧ lapsing getTime now (Client.s_expires_at session)))
    ∧ (∀ returned s expiryTime, answer.1 = Client.Returned returned
       → (∀ tokenData, fetched = Client.FetchOk tokenData
          → ¬ lapsing getTime now (Client.td_expires_at tokenData))
       → Client.s_expires_at returned = Some s → getTime s = Some expiryTime
       → 30000 < expiryTime - now).
Proof.
  intros getTime session now fetched written store answer.
  assert (∀ expiresAt s expiryTime, ¬ lapsing getTime now expiresAt
            → expiresAt = Some s → getTime s = Some expiryTime
            → 30000 < expiryTime - now) as Hleft.
  { intros expiresAt s expiryTime Hn Hs Ht.
    destruct (Z_lt_le_dec 30000 (expiryTime - now)) as [Hlt|Hle]; [exact Hlt|].
    exfalso. apply Hn. right. right. exists s, expiryTime. auto. }
  subst answer store. unfold Client.ensureValidToken. simpl.
  destruct (Client.isTokenExpired getTime now (Client.s_expires_at session)) eqn:He.
  - assert (lapsing getTime now (Client.s_expires_at session)) as Hl
      by (apply isTokenExpired_lapsing; exact He).
    split; [|split; [|split]].
    + intros _. split; [reflexivity|]. split.
      * intros tokenData ->. simpl. split; [reflexivity|].
        unfold Client.setSession. reflexivity.
      * intros detail ->. reflexivity.
    + intros Hn. contradiction.
    + intros returned Hr. right. destruct fetched as [detail|tokenData]; simpl in Hr.
      * discriminate.
      * injection Hr as <-. exists tokenData. auto.
    + intros returned s expiryTime Hr Hfresh Hs Ht.
      destruct fetched as [detail|tokenData]; simpl in Hr; [discriminate|].
      injection Hr as <-. simpl in Hs.
      exact (Hleft _ s expiryTime (Hfresh tokenData eq_refl) Hs Ht).
  - assert (¬ lapsing getTime now (Client.s_expires_at session)) as Hn.
    { intros Hl. apply isTokenExpired_lapsing in Hl. congruence. }
    split; [|split; [|split]].
    + intros Hl. contradiction.
    + intros _. reflexivity.
    + intros returned [= <-]. left. auto.
    + intros returned s expiryTime [= <-] _ Hs Ht.
      exact (Hleft _ s expiryTime Hn Hs Ht).
Qed.

(** C10, as stated, fails: at 0 ms the stored session expires in 10
    seconds, so a token is fetched; the server answers with a token that
    expires in 20 seconds, and [ensureValidToken] returns that session,
    which is within 30 seconds of its expiry; and when the write to the
    storage fails, the stored session is not discarded: the storage still
    holds it. *)
Lemma fresh_token_within_buffer :
  lapsing sample_getTime 0 (Client.s_expires_at stale_session)
  ∧ (Client.ensureValidToken sample_getTime (Some stale_session) 0
       (Client.FetchOk short_lived) true).1
    = Client.Returned (Client.session_of short_lived)
  ∧ Client.s_expires_at (Client.session_of short_lived) = Some "2025-11-05T15:00:20Z"
  ∧ sample_getTime "2025-11-05T15:00:20Z" = Some 20000
  ∧ 20000 - 0 ≤ 30000
  ∧ Client.isTokenExpired sample_getTime 0
      (Client.s_expires_at (Client.session_of short_lived)) = true
  ∧ (Client.ensureValidToken sample_getTime (Some stale_session) 0
       (Client.FetchOk short_lived) false).2
    = Some stale_session.
Proof.
  split.
  { right. right. exists "2025-11-05T15:00:10Z", 10000.
    split; [reflexivity|]. split; [vm_compute; reflexivity | lia]. }
  split; [vm_compute; reflexivity|].
  split; [reflexivity|].
  split; [vm_compute; reflexivity|].
  split; [lia|].
  split; vm_compute; reflexivity.
Qed.

(** Without a stored session the token is fetched as well. *)
Lemma ensureValidToken_no_session (getTime : string → option Z) (now : Z)
    (fetched : Client.Fetched) (written : bool) :
  Client.ensureValidToken getTime None now fetched written
  = Client.initializeToken None fetched written.
Proof. reflexivity. Qed.

(** ** The order of the checks of [post_vote] *)

Lemma rejection_keeps_state (st : Server) (e : Env)
    (contestant fingerprint token ip : string) (err : Outcome) :
  rejection st e contestant fingerprint token ip = Some err →
  post_vote st e contestant fingerprint token ip = (err, st)
  ∧ ∀ message, err ≠ Recorded message.
Proof.
  intros Hr. unfold post_vote. rewrite Hr. split; [reflexivity|].
  intros message ->. unfold rejection in Hr.
  repeat (match type of Hr with context [if ?b then _ else _] => destruct b end;
          try discriminate).
Qed.

(** C8, as amended.  [post_vote] checks the token, then the rate limiter,
    then the duplicate, then the ceiling of the device, and the first
    check that fails gives the error, the state staying as it was; a
    request with a valid token that is both a duplicate and over the rate
    limit gets HTTP429. *)
Theorem post_vote_first_failing_check :
  ∀ (st : Server) (e : Env) (contestant fingerprint token ip : string),
    let valid := validate_token st (now_utc e) token fingerprint in
    let limited := too_many e ip fingerprint in
    let voted := has_voted (db st) fingerprint contestant in
    let full := bool_decide (3 ≤ total_votes (db st) fingerprint)%nat in
    let answer := post_vote st e contestant fingerprint token ip in
    (valid = false → answer = (InvalidToken, st))
    ∧ (valid = true → limited = true → answer = (HTTP429, st))
    ∧ (valid = true → limited = false → voted = true → answer = (Duplicate, st))
    ∧ (valid = true → limited = false → voted = false → full = true
       → answer = (LimitReached, st))
    ∧ (valid = true → limited = false → voted = false → full = false
       → answer = (Recorded ("Vote recorded for " ++ contestant ++ "!"),
                   record_vote st contestant fingerprint)).
Proof.
  intros st e contestant fingerprint token ip. cbv zeta.
  unfold post_vote, rejection.
  repeat split; intros; repeat match goal with H : _ = _ |- _ => rewrite H end;
    reflexivity.
Qed.

(** C8, as stated, fails: the device that voted for smith votes for smith
    again with its valid token while the limiter is over its threshold,
    and the answer is HTTP429, not Duplicate. *)
Lemma duplicate_over_rate_limit_gets_429 :
  validate_token after_vote 20 "aaaa" "visitorlocal" = true
  ∧ has_voted (db after_vote) "visitorlocal" "smith" = true
  ∧ too_many (busy 20 "cccc") "1.1.1.1" "visitorlocal" = true
  ∧ post_vote after_vote (busy 20 "cccc") "smith" "visitorlocal" "aaaa" "1.1.1.1"
    = (HTTP429, after_vote)
  ∧ (post_vote after_vote (busy 20 "cccc") "smith" "visitorlocal" "aaaa" "1.1.1.1").1
    ≠ Duplicate.
Proof.
  assert (post_vote after_vote (busy 20 "cccc") "smith" "visitorlocal" "aaaa" "1.1.1.1"
          = (HTTP429, after_vote)) as Hrun by (vm_compute; reflexivity).
  split; [vm_compute; reflexivity|].
  split; [vm_compute; reflexivity|].
  split; [reflexivity|].
  split; [exact Hrun|].
  rewrite Hrun. simpl. discriminate.
Qed.

(** ** The ledger *)

Lemma get_token_votes (sha256 : string → string) (st : Server) (e : Env)
    (visitor_id local_id ip ua : string) :
  votes (db (get_token sha256 st e visitor_id local_id ip ua).2) = votes (db st).
Proof.
  unfold get_token. simpl.
  destruct (find_session (db st) (sha256 (visitor_id ++ local_id))); reflexivity.
Qed.

Lemma has_voted_ballots (d : DB) (fingerprint contestant : string) :
  has_voted d fingerprint contestant = true ↔ (fingerprint, contestant) ∈ ballots d.
Proof.
  unfold has_voted, ballots. induction (votes d) as [|v vs IH]; simpl.
  - split; [discriminate | intros H; inversion H].
  - rewrite orb_true_iff, andb_true_iff, !bool_decide_eq_true, IH.
    rewrite elem_of_cons. split.
    + intros [[<- <-]|H]; [left; reflexivity | right; exact H].
    + intros [[= -> ->]|H]; [left; split; reflexivity | right; exact H].
Qed.

Lemma record_vote_row (st : Server) (contestant fingerprint : string) :
  record_vote st contestant fingerprint
  = record_row st {| v_fingerprint := fingerprint; v_contestant := contestant;
                     v_ip_address := None |}.
Proof. reflexivity. Qed.


Lemma total_votes_record (st : Server) (v : Vote) (other : string) :
  total_votes (db (record_row st v)) other
  = (total_votes (db st) other + if decide (v_fingerprint v = other) then 1 else 0)%nat.
Proof.
  unfold total_votes, record_row. simpl. rewrite filter_app, length_app.
  f_equal. rewrite filter_cons. simpl. case_decide; reflexivity.
Qed.


Lemma ballots_record (st : Server) (v : Vote) :
  ballots (db (record_row st v))
  = (ballots (db st) ++ [(v_fingerprint v, v_contestant v)])%list.
Proof. unfold ballots, record_row. simpl. rewrite fmap_app. reflexivity. Qed.

(** What passing the checks of [post_vote] tells. *)
Lemma rejection_none (st : Server) (e : Env) (contestant fingerprint token ip : string) :
  rejection st e contestant fingerprint token ip = None →
  validate_token st (now_utc e) token fingerprint = true
  ∧ too_many e ip fingerprint = false
  ∧ has_voted (db st) fingerprint contestant = false
  ∧ (total_votes (db st) fingerprint < 3)%nat.
Proof.
  unfold rejection.
  destruct (validate_token st (now_utc e) token fingerprint); simpl; [|discriminate].
  destruct (too_many e ip fingerprint); [discriminate|].
  destruct (has_voted (db st) fingerprint contestant); [discriminate|].
  case_bool_decide as Hfull; [discriminate|]. intros _. repeat split. lia.
Qed.

Lemma post_vote_effect (st : Server) (e : Env) (contestant fingerprint token ip : string) :
  (post_vote st e contestant fingerprint token ip).2 = st
  ∨ (rejection st e contestant fingerprint token ip = None
     ∧ (post_vote st e contestant fingerprint token ip).2
       = record_vote st contestant fingerprint).
Proof.
  unfold post_vote.
  destruct (rejection st e contestant fingerprint token ip); [left | right]; auto.
Qed.


Lemma post_vote_guarded : guarded post_vote.
Proof.
  intros st e contestant fingerprint token ip.
  destruct (post_vote_effect st e contestant fingerprint token ip)
    as [H|[H1 H2]]; [left; exact H | right].
  split; [exact H1|]. exists None. rewrite H2. apply record_vote_row.
Qed.


Section Ledger_invariants.

Variable sha256 : string → string.
Variable vote : VoteHandler.
Hypothesis vote_guarded : guarded vote.


Lemma device_ceiling (st : Server) :
  reachable sha256 vote st → ∀ fingerprint, (total_votes (db st) fingerprint ≤ 3)%nat.
Proof.
  induction 1 as [|st e visitor_id local_id ip ua _ IH
                  |st e contestant fingerprint token ip _ IH].
  - intros fingerprint. unfold total_votes. simpl. lia.
  - unfold total_votes in *. rewrite get_token_votes. exact IH.
  - destruct (vote_guarded st e contestant fingerprint token ip)
      as [->|(Hnone & address & ->)]; [exact IH|].
    destruct (rejection_none _ _ _ _ _ _ Hnone) as (_ & _ & _ & Hdev).
    intros other. rewrite total_votes_record. cbn [v_fingerprint].
    case_decide; [subst other; lia | specialize (IH other); lia].
Qed.

End Ledger_invariants.



(** ** The two ceilings *)


(** The reference pseudocode alone keeps the ceiling of the device but
    has no ceiling on the address, and the rows it inserts do not carry
    the address: after three votes of one device sent from one address,
    no row counts for that address, and a second device at the same
    address votes and is recorded. *)
Example post_vote_has_no_address_ceiling :
  length (votes (db (second_device post_vote))) = 3%nat
  ∧ votes_from_ip (db (second_device post_vote)) "1.1.1.1" = 0%nat
  ∧ (post_vote (second_device post_vote) (quiet 50 "eeee")
       "brown" "otherlocal" "dddd" "1.1.1.1").1
    = Recorded "Vote recorded for brown!".
Proof. repeat split; vm_compute; reflexivity. Qed.



(** ** Tokens *)

Lemma get_token_sessions (sha256 : string → string) (st : Server) (e : Env)
    (visitor_id local_id ip ua : string) :
  let fingerprint := sha256 (visitor_id ++ local_id) in
  vote_sessions (db (get_token sha256 st e visitor_id local_id ip ua).2)
  = match find_session (db st) fingerprint with
    | Some _ => vote_sessions (db st)
    | None => <[fingerprint := new_session]> (vote_sessions (db st))
    end.
Proof.
  cbv zeta. unfold get_token. simpl.
  destruct (find_session (db st) (sha256 (visitor_id ++ local_id))); reflexivity.
Qed.

(** The reference pseudocode derives the fingerprint from both ids; in
    backend/main.py the derivation is [compute_fingerprint]. *)
Lemma get_token_fingerprint (sha256 : string → string) (st : Server) (e : Env)
    (visitor_id local_id ip ua : string) :
  fingerprint (get_token sha256 st e visitor_id local_id ip ua).1
  = sha256 (visitor_id ++ local_id).
Proof. reflexivity. Qed.

Lemma get_token_has_session (sha256 : string → string) (st : Server) (e : Env)
    (visitor_id local_id ip ua : string) :
  is_Some (find_session (db (get_token sha256 st e visitor_id local_id ip ua).2)
             (sha256 (visitor_id ++ local_id))).
Proof.
  unfold find_session. rewrite get_token_sessions.
  destruct (find_session (db st) (sha256 (visitor_id ++ local_id))) as [s|] eqn:Hs.
  - exists s. exact Hs.
  - exists new_session. apply lookup_insert_eq.
Qed.

Lemma get_token_validates (sha256 : string → string) (st : Server) (e : Env)
    (visitor_id local_id ip ua : string) :
  let answer := get_token sha256 st e visitor_id local_id ip ua in
  validate_token answer.2 (now_utc e) (token answer.1) (fingerprint answer.1) = true.
Proof.
  cbv zeta. unfold validate_token, token_record, cache_get, get_token, cache_set. simpl.
  rewrite lookup_insert_eq.
  rewrite bool_decide_eq_true_2 by lia. simpl.
  rewrite bool_decide_eq_true_2 by lia.
  rewrite bool_decide_eq_true_2 by reflexivity. reflexivity.
Qed.

(** C4, as amended.  Of two calls of the token endpoint by one device each
    returns the token drawn for it, expiring 15 minutes after the call,
    whether or not the token stored before has expired; the fingerprint,
    the session of the fingerprint and the ledger, so the two vote counts
    of the response, are the same after the second call as after the
    first, and the token just returned passes the token check. *)
Theorem get_token_reissues :
  ∀ (sha256 : string → string) (st : Server) (e1 e2 : Env)
    (visitor_id local_id ip ua : string),
    let first := get_token sha256 st e1 visitor_id local_id ip ua in
    let second := get_token sha256 first.2 e2 visitor_id local_id ip ua in
    token second.1 = token_hex e2
    ∧ expires_at second.1 = now_utc e2 + 900
    ∧ fingerprint second.1 = fingerprint first.1
    ∧ is_Some (find_session (db first.2) (fingerprint first.1))
    ∧ vote_sessions (db second.2) = vote_sessions (db first.2)
    ∧ votes (db second.2) = votes (db first.2)
    ∧ (∀ session, find_session (db first.2) (fingerprint first.1) = Some session →
         r_votes_used (token_response (db second.2) session ip (token second.1)
                         (fingerprint second.1) (expires_at second.1))
         = r_votes_used (token_response (db first.2) session ip (token first.1)
                           (fingerprint first.1) (expires_at first.1))
         ∧ r_votes_used_from_ip (token_response (db second.2) session ip (token second.1)
                                   (fingerprint second.1) (expires_at second.1))
           = r_votes_used_from_ip (token_response (db first.2) session ip (token first.1)
                                     (fingerprint first.1) (expires_at first.1)))
    ∧ validate_token second.2 (now_utc e2) (token second.1) (fingerprint second.1) = true.
Proof.
  intros sha256 st e1 e2 visitor_id local_id ip ua first second.
  assert (vote_sessions (db second.2) = vote_sessions (db first.2)) as Hsessions.
  { subst second. rewrite get_token_sessions.
    destruct (get_token_has_session sha256 st e1 visitor_id local_id ip ua) as [s Hs].
    fold first in Hs. rewrite Hs. reflexivity. }
  assert (votes (db second.2) = votes (db first.2)) as Hvotes
    by (subst second; apply get_token_votes).
  split; [reflexivity|]. split; [reflexivity|]. split; [reflexivity|].
  split; [apply get_token_has_session|].
  split; [exact Hsessions|]. split; [exact Hvotes|].
  split; [|apply get_token_validates].
  intros session _. split; [reflexivity|].
  unfold token_response, votes_from_ip. cbn [r_votes_used_from_ip].
  rewrite Hvotes. reflexivity.
Qed.

(** C4, as stated, fails: the second call, 10 seconds after the first
    and so with the first token unexpired and valid, returns another
    token. *)
Lemma second_call_changes_token :
  now_utc (quiet 10 "bbbb") < expires_at first_call.1
  ∧ validate_token first_call.2 10 (token first_call.1) (fingerprint first_call.1) = true
  ∧ fingerprint second_call.1 = fingerprint first_call.1
  ∧ token first_call.1 = "aaaa"
  ∧ token second_call.1 = "bbbb"
  ∧ token second_call.1 ≠ token first_call.1.
Proof.
  split; [vm_compute; reflexivity|].
  split; [vm_compute; reflexivity|].
  split; [reflexivity|]. split; [reflexivity|]. split; [reflexivity|].
  simpl. discriminate.
Qed.

(** ** Changes of address *)

Lemma detect_ip_change_moved (cfg : Settings) (d : DB) (fingerprint ip : string)
    (session : VoteSession) (old : string) :
  find_session d fingerprint = Some session →
  ip_address session = Some old → old ≠ EmptyString → old ≠ ip →
  detect_ip_change cfg d fingerprint ip
  = if bool_decide (MAX_IP_CHANGES_ALLOWED cfg ≤ ip_changes d fingerprint)%nat
    then (HTTP403, mark_suspicious d fingerprint)
    else (Continue, add_ip_change_log d fingerprint (Some old) ip).
Proof.
  intros Hs Hold Hne Hdiff. unfold detect_ip_change. rewrite Hs, Hold. simpl.
  rewrite (bool_decide_eq_false_2 (old = EmptyString)) by exact Hne.
  rewrite (bool_decide_eq_false_2 (Some old = Some ip)) by congruence.
  reflexivity.
Qed.

(** C5, as amended.  When the address of the request differs from the
    address stored for the session: if fewer changes than
    MAX_IP_CHANGES_ALLOWED are logged for the fingerprint, one record
    (old, new) is appended to the log and the session is left as it was,
    its flag included; otherwise the session is flagged, the request is
    answered 403 and the log is left as it was.  With the default of 1 the
    first change leaves the flag alone and the second one sets it. *)
Theorem ip_change_detection :
  ∀ (cfg : Settings) (d : DB) (fingerprint ip : string)
    (session : VoteSession) (old : string),
    find_session d fingerprint = Some session →
    ip_address session = Some old → old ≠ EmptyString → old ≠ ip →
    let answer := detect_ip_change cfg d fingerprint ip in
    ((ip_changes d fingerprint < MAX_IP_CHANGES_ALLOWED cfg)%nat →
       answer.1 = Continue
       ∧ ip_change_logs answer.2
         = (ip_change_logs d
            ++ [{| l_fingerprint := fingerprint; old_ip := Some old; new_ip := ip |}])%list
       ∧ find_session answer.2 fingerprint = Some session)
    ∧ ((MAX_IP_CHANGES_ALLOWED cfg ≤ ip_changes d fingerprint)%nat →
       answer.1 = HTTP403
       ∧ ip_change_logs answer.2 = ip_change_logs d
       ∧ find_session answer.2 fingerprint = Some (flag session)
       ∧ is_suspicious (flag session) = true)
    ∧ (cfg = settings →
       (ip_changes d fingerprint = 0%nat →
          ∃ after, find_session answer.2 fingerprint = Some after
                   ∧ is_suspicious after = is_suspicious session)
       ∧ (ip_changes d fingerprint = 1%nat →
          ∃ after, find_session answer.2 fingerprint = Some after
                   ∧ is_suspicious after = true)).
Proof.
  intros cfg d fingerprint ip session old Hs Hold Hne Hdiff. cbv zeta.
  rewrite (detect_ip_change_moved cfg d fingerprint ip session old Hs Hold Hne Hdiff).
  assert (find_session (mark_suspicious d fingerprint) fingerprint = Some (flag session))
    as Hflag.
  { unfold find_session, mark_suspicious in *. simpl.
    rewrite lookup_alter_eq, Hs. reflexivity. }
  split; [|split].
  - intros Hfew. rewrite bool_decide_eq_false_2 by lia. simpl.
    split; [reflexivity|]. split; [reflexivity | exact Hs].
  - intros Hmany. rewrite bool_decide_eq_true_2 by exact Hmany. simpl.
    split; [reflexivity|]. split; [reflexivity|]. split; [exact Hflag | reflexivity].
  - intros ->. simpl. split; intros ->; simpl.
    + exists session. split; [exact Hs | reflexivity].
    + exists (flag session). split; [exact Hflag | reflexivity].
Qed.

Lemma ip_change_detection_witness :
  (detect_ip_change settings (seen_at "1.1.1.1" [] false) "fp1" "2.2.2.2").1 = Continue
  ∧ ip_change_logs (detect_ip_change settings (seen_at "1.1.1.1" [] false) "fp1" "2.2.2.2").2
    = [home_to_work]
  ∧ (detect_ip_change settings (seen_at "2.2.2.2" [home_to_work] false) "fp1" "3.3.3.3").1
    = HTTP403.
Proof.
  destruct (ip_change_detection settings (seen_at "1.1.1.1" [] false) "fp1" "2.2.2.2"
              {| votes_used := 0; ip_address := Some "1.1.1.1"; is_suspicious := false |}
              "1.1.1.1" eq_refl eq_refl ltac:(discriminate) ltac:(discriminate))
    as (Hfirst & _ & _).
  destruct (ip_change_detection settings (seen_at "2.2.2.2" [home_to_work] false)
              "fp1" "3.3.3.3"
              {| votes_used := 0; ip_address := Some "2.2.2.2"; is_suspicious := false |}
              "2.2.2.2" eq_refl eq_refl ltac:(discriminate) ltac:(discriminate))
    as (_ & Hsecond & _).
  destruct Hfirst as (Hgo & Hlog & _); [vm_compute; lia|].
  destruct Hsecond as (Hstop & _); [vm_compute; lia|].
  split; [exact Hgo|]. split; [exact Hlog | exact Hstop].
Defined.

(** C5, as stated, fails: the session last seen at 2.2.2.2, with one
    change logged, is touched from 3.3.3.3; the session is flagged and the
    request is answered 403, but no record (2.2.2.2, 3.3.3.3) is appended:
    the log is what it was. *)
Lemma second_change_is_not_logged :
  find_session (seen_at "2.2.2.2" [home_to_work] false) "fp1"
  = Some {| votes_used := 0; ip_address := Some "2.2.2.2"; is_suspicious := false |}
  ∧ detect_ip_change settings (seen_at "2.2.2.2" [home_to_work] false) "fp1" "3.3.3.3"
    = (HTTP403, seen_at "2.2.2.2" [home_to_work] true)
  ∧ ip_change_logs
      (detect_ip_change settings (seen_at "2.2.2.2" [home_to_work] false) "fp1" "3.3.3.3").2
    = [home_to_work]
  ∧ {| l_fingerprint := "fp1"; old_ip := Some "2.2.2.2"; new_ip := "3.3.3.3" |}
    ∉ ip_change_logs
        (detect_ip_change settings (seen_at "2.2.2.2" [home_to_work] false) "fp1" "3.3.3.3").2.
Proof.
  assert (detect_ip_change settings (seen_at "2.2.2.2" [home_to_work] false) "fp1" "3.3.3.3"
          = (HTTP403, seen_at "2.2.2.2" [home_to_work] true)) as Hrun.
  { vm_compute. reflexivity. }
  split; [vm_compute; reflexivity|]. split; [exact Hrun|].
  rewrite Hrun. simpl. split; [reflexivity|].
  intros Hin. apply list_elem_of_singleton in Hin. discriminate Hin.
Qed.

(** ** The flag *)

Lemma flagged_get_token (sha256 : string → string) (st : Server) (e : Env)
    (visitor_id local_id ip ua fingerprint : string) :
  flagged (db st) fingerprint →
  flagged (db (get_token sha256 st e visitor_id local_id ip ua).2) fingerprint.
Proof.
  intros (s & Hs & Hflag). exists s. split; [|exact Hflag].
  unfold find_session in *. rewrite get_token_sessions.
  destruct (find_session (db st) (sha256 (visitor_id ++ local_id))) eqn:Hfound;
    [exact Hs|].
  rewrite lookup_insert_ne; [exact Hs|].
  intros <-. unfold find_session in Hfound. congruence.
Qed.

Lemma flagged_alter (f : VoteSession → VoteSession)
    (sessions : gmap string VoteSession) (key fingerprint : string) (s : VoteSession) :
  (∀ x, is_suspicious x = true → is_suspicious (f x) = true) →
  sessions !! fingerprint = Some s → is_suspicious s = true →
  ∃ s', alter f key sessions !! fingerprint = Some s' ∧ is_suspicious s' = true.
Proof.
  intros Hf Hs Hflag. destruct (decide (key = fingerprint)) as [->|Hne].
  - exists (f s). rewrite lookup_alter_eq, Hs. split; [reflexivity | apply Hf, Hflag].
  - exists s. rewrite lookup_alter_ne by exact Hne. split; [exact Hs | exact Hflag].
Qed.

Lemma flagged_post_vote (st : Server) (e : Env)
    (contestant voter token ip fingerprint : string) :
  flagged (db st) fingerprint →
  flagged (db (post_vote st e contestant voter token ip).2) fingerprint.
Proof.
  intros Hflagged.
  destruct (post_vote_effect st e contestant voter token ip) as [->|[_ ->]];
    [exact Hflagged|].
  destruct Hflagged as (s & Hs & Hflag). unfold flagged, find_session, record_vote. simpl.
  apply (flagged_alter bump _ voter fingerprint s); auto.
Qed.

Lemma flagged_detect_ip_change (cfg : Settings) (d : DB) (device ip fingerprint : string) :
  flagged d fingerprint →
  flagged (detect_ip_change cfg d device ip).2 fingerprint.
Proof.
  intros Hflagged. unfold detect_ip_change.
  destruct (find_session d device) as [session|]; [|exact Hflagged].
  destruct (truthy (ip_address session)
            && negb (bool_decide (ip_address session = Some ip))); [|exact Hflagged].
  case_bool_decide; simpl; [|exact Hflagged].
  destruct Hflagged as (s & Hs & Hflag). unfold flagged, find_session, mark_suspicious. simpl.
  apply (flagged_alter flag _ device fingerprint s); auto.
Qed.

(** C6.  No operation of the core clears the flag: along any sequence of
    token requests, vote requests and address checks, a session that is
    flagged stays flagged. *)
Theorem is_suspicious_monotone :
  ∀ (sha256 : string → string) (st st' : Server),
    rtc (step sha256) st st' →
    ∀ fingerprint, flagged (db st) fingerprint → flagged (db st') fingerprint.
Proof.
  intros sha256 st st' Hrun. induction Hrun as [st|st mid st' Hstep _ IH]; [auto|].
  intros fingerprint Hflagged. apply IH. clear IH.
  destruct Hstep as [st e visitor_id local_id ip ua
                    |st e contestant voter token ip
                    |cfg st device ip].
  - apply flagged_get_token, Hflagged.
  - apply flagged_post_vote, Hflagged.
  - simpl. apply flagged_detect_ip_change, Hflagged.
Qed.

Lemma is_suspicious_monotone_witness :
  flagged
    (db (post_vote
           (get_token sample_digest
              (with_db empty_server
                 (detect_ip_change settings (seen_at "2.2.2.2" [home_to_work] true)
                    "fp1" "3.3.3.3").2)
              (quiet 0 "aaaa") "fp" "1" "3.3.3.3" "ua").2
           (quiet 10 "bbbb") "smith" "fp1" "aaaa" "3.3.3.3").2)
    "fp1".
Proof.
  apply (is_suspicious_monotone sample_digest
           {| db := seen_at "2.2.2.2" [home_to_work] true; cache := ∅ |}).
  - eapply rtc_l; [apply (step_ip sample_digest settings _ "fp1" "3.3.3.3")|].
    eapply rtc_l; [apply (step_token sample_digest _ (quiet 0 "aaaa") "fp" "1" "3.3.3.3" "ua")|].
    eapply rtc_l; [apply (step_vote sample_digest _ (quiet 10 "bbbb") "smith" "fp1" "aaaa" "3.3.3.3")|].
    apply rtc_refl.
  - eexists. split; [vm_compute; reflexivity | reflexivity].
Defined.

(** * Further properties of the endpoints *)

(** ** The count of a session and the ledger *)

Lemma get_token_cache (sha256 : string → string) (st : Server) (e : Env)
    (visitor_id local_id ip ua : string) :
  cache (get_token sha256 st e visitor_id local_id ip ua).2
  = <[tok_key (token_hex e) :=
        ({| fp := sha256 (visitor_id ++ local_id); exp := now_utc e + 900 |},
         now_utc e + 900)]> (cache st).
Proof. reflexivity. Qed.

Lemma get_token_tokens (sha256 : string → string) (st : Server) (e : Env)
    (visitor_id local_id ip ua : string) :
  tokens (db (get_token sha256 st e visitor_id local_id ip ua).2)
  = {| tr_fingerprint := sha256 (visitor_id ++ local_id); tr_token := token_hex e;
       tr_expires_at := now_utc e + 900 |}
    :: filter (λ r, tr_fingerprint r ≠ sha256 (visitor_id ++ local_id)) (tokens (db st)).
Proof.
  unfold get_token. simpl.
  destruct (find_session (db st) (sha256 (visitor_id ++ local_id))); reflexivity.
Qed.

Lemma get_token_session_kept (sha256 : string → string) (st : Server) (e : Env)
    (visitor_id local_id ip ua other : string) (s : VoteSession) :
  find_session (db st) other = Some s →
  find_session (db (get_token sha256 st e visitor_id local_id ip ua).2) other = Some s.
Proof.
  unfold find_session. intros Hs. rewrite get_token_sessions.
  destruct (find_session (db st) (sha256 (visitor_id ++ local_id))) eqn:Hfound;
    [exact Hs|].
  rewrite lookup_insert_ne; [exact Hs|].
  intros <-. unfold find_session in Hfound. congruence.
Qed.

Lemma tokens_have_sessions_reachable (sha256 : string → string) (st : Server) :
  reachable sha256 post_vote st → tokens_have_sessions st.
Proof.
  induction 1 as [|st e visitor_id local_id ip ua _ IH
                  |st e contestant fingerprint token ip _ IH].
  - split.
    + intros key t lapses Hc. simpl in Hc. rewrite lookup_empty in Hc. discriminate.
    + intros r Hr. simpl in Hr. inversion Hr.
  - destruct IH as [IHc IHt]. split.
    + intros key t lapses. rewrite get_token_cache.
      destruct (decide (tok_key (token_hex e) = key)) as [<-|Hne].
      * rewrite lookup_insert_eq. intros [= <- _]. simpl.
        apply (get_token_has_session sha256 st e visitor_id local_id ip ua).
      * rewrite lookup_insert_ne by exact Hne. intros Hc.
        destruct (IHc key t lapses Hc) as [s Hs]. exists s.
        apply (get_token_session_kept sha256 st e visitor_id local_id ip ua), Hs.
    + intros r. rewrite get_token_tokens. intros Hr.
      apply elem_of_cons in Hr as [->|Hr].
      * simpl. apply (get_token_has_session sha256 st e visitor_id local_id ip ua).
      * apply list_elem_of_filter in Hr as [_ Hr].
        destruct (IHt r Hr) as [s Hs]. exists s.
        apply (get_token_session_kept sha256 st e visitor_id local_id ip ua), Hs.
  - destruct (post_vote_effect st e contestant fingerprint token ip)
      as [->|[_ ->]]; [exact IH|].
    destruct IH as [IHc IHt].
    assert (∀ f, is_Some (find_session (db st) f)
                 → is_Some (find_session (db (record_vote st contestant fingerprint)) f))
      as Hkeep.
    { intros f [s Hs]. unfold find_session, record_vote in *. simpl.
      destruct (decide (fingerprint = f)) as [->|Hne].
      - exists (bump s). rewrite lookup_alter_eq, Hs. reflexivity.
      - exists s. rewrite lookup_alter_ne by exact Hne. exact Hs. }
    split.
    + intros key t lapses Hc. apply Hkeep. exact (IHc key t lapses Hc).
    + intros r Hr. apply Hkeep. exact (IHt r Hr).
Qed.

Lemma validated_has_session (st : Server) (now : Z) (token fingerprint : string) :
  tokens_have_sessions st →
  validate_token st now token fingerprint = true →
  is_Some (find_session (db st) fingerprint).
Proof.
  intros [Hc Ht] Hv. unfold validate_token in Hv.
  destruct (token_record st now token) as [t|] eqn:Hrec; [|discriminate].
  apply andb_true_iff in Hv as [_ Hfp]. apply bool_decide_eq_true in Hfp. subst fingerprint.
  destruct (token_record_stored st now token t Hrec)
    as [(lapses & Hcache & _)|(r & Hr & _ & Hfp & _)].
  - exact (Hc _ _ _ Hcache).
  - rewrite Hfp. exact (Ht r Hr).
Qed.

Lemma counts_match_reachable (sha256 : string → string) (st : Server) :
  reachable sha256 post_vote st → counts_match (db st).
Proof.
  intros Hreach. induction Hreach as [|st e visitor_id local_id ip ua Hreach IH
                  |st e contestant fingerprint token ip Hreach IH].
  - intros f. unfold find_session, total_votes. simpl. rewrite lookup_empty. reflexivity.
  - intros f. specialize (IH f). unfold find_session, total_votes in *.
    rewrite get_token_votes, get_token_sessions.
    destruct (find_session (db st) (sha256 (visitor_id ++ local_id))) eqn:Hfound;
      [exact IH|].
    destruct (decide (sha256 (visitor_id ++ local_id) = f)) as [<-|Hne].
    + rewrite lookup_insert_eq. unfold find_session in Hfound. rewrite Hfound in IH.
      simpl. symmetry. exact IH.
    + rewrite lookup_insert_ne by exact Hne. exact IH.
  - destruct (post_vote_effect st e contestant fingerprint token ip)
      as [->|[Hnone ->]]; [exact IH|].
    destruct (rejection_none _ _ _ _ _ _ Hnone) as (Hvalid & _ & _ & _).
    destruct (validated_has_session st _ _ _
                (tokens_have_sessions_reachable sha256 st Hreach) Hvalid) as [s Hs].
    intros f. specialize (IH f). rewrite record_vote_row, total_votes_record.
    unfold find_session, record_row in *. simpl.
    destruct (decide (fingerprint = f)) as [->|Hne].
    + rewrite lookup_alter_eq, Hs. rewrite Hs in IH. simpl. lia.
    + rewrite lookup_alter_ne by exact Hne.
      destruct (vote_sessions (db st) !! f); lia.
Qed.

(** X1.  On a server reached by token and vote requests, the votes handled
    by [post_vote], the count [votes_used] of every session is the number
    of votes of its fingerprint in the ledger, at most 3, and a
    fingerprint without a session has no vote in the ledger. *)
Theorem votes_used_counts_the_ledger :
  ∀ (sha256 : string → string) (st : Server),
    reachable sha256 post_vote st →
    ∀ fingerprint,
      match find_session (db st) fingerprint with
      | Some session =>
          votes_used session = total_votes (db st) fingerprint
          ∧ (votes_used session ≤ 3)%nat
      | None => total_votes (db st) fingerprint = 0%nat
      end.
Proof.
  intros sha256 st Hreach fingerprint.
  pose proof (counts_match_reachable sha256 st Hreach fingerprint) as Hcount.
  pose proof (device_ceiling sha256 post_vote post_vote_guarded st Hreach fingerprint) as Hmax.
  destruct (find_session (db st) fingerprint); [split; lia | exact Hcount].
Qed.

Lemma votes_used_counts_the_ledger_witness :
  match find_session (db after_vote) "visitorlocal" with
  | Some session =>
      votes_used session = total_votes (db after_vote) "visitorlocal"
      ∧ (votes_used session ≤ 3)%nat
  | None => total_votes (db after_vote) "visitorlocal" = 0%nat
  end.
Proof.
  apply (votes_used_counts_the_ledger sample_digest after_vote).
  apply (reach_vote _ _ _ _ _ _ _ _ (reach_token _ _ _ _ _ _ _ _ (reach_empty _ _))).
Defined.

(** ** The life of a token *)

(** X2.  The token returned by the token endpoint passes the token check
    of the vote endpoint for the fingerprint it was issued to and for no
    other, at every time before 900 seconds after the issue and at no time
    from then on. *)
Theorem issued_token_lifetime :
  ∀ (sha256 : string → string) (st : Server) (e : Env)
    (visitor_id local_id ip ua : string) (later : Z) (presented : string),
    let answer := get_token sha256 st e visitor_id local_id ip ua in
    validate_token answer.2 later (token answer.1) presented = true
    ↔ later < now_utc e + 900 ∧ presented = fingerprint answer.1.
Proof.
  intros sha256 st e visitor_id local_id ip ua later presented. cbv zeta.
  unfold validate_token, token_record, cache_get.
  rewrite get_token_cache. cbn [token fingerprint get_token fst].
  rewrite lookup_insert_eq.
  destruct (decide (later < now_utc e + 900)) as [Hlt|Hge].
  - rewrite bool_decide_eq_true_2 by exact Hlt. cbn [fp exp].
    rewrite bool_decide_eq_true_2 by exact Hlt. simpl.
    rewrite bool_decide_eq_true. split; [intros <-; auto | intros [_ ->]; reflexivity].
  - rewrite bool_decide_eq_false_2 by exact Hge.
    unfold find_token. rewrite get_token_tokens. cbn [find_row tr_token].
    rewrite bool_decide_eq_true_2 by reflexivity. cbn [fmap option_fmap option_map fp exp
      tr_fingerprint tr_expires_at].
    rewrite bool_decide_eq_false_2 by exact Hge. simpl.
    split; [discriminate | intros [Hlt _]; contradiction].
Qed.

Lemma record_vote_validate (st : Server) (contestant fingerprint : string)
    (now : Z) (token presented : string) :
  validate_token (record_vote st contestant fingerprint) now token presented
  = validate_token st now token presented.
Proof. reflexivity. Qed.

(** X3.  A vote, recorded or rejected, leaves every token as it was: the
    token check answers after the vote what it answered before, for every
    token, fingerprint and time. *)
Theorem post_vote_keeps_tokens :
  ∀ (st : Server) (e : Env) (contestant fingerprint token ip : string)
    (now : Z) (other presented : string),
    validate_token (post_vote st e contestant fingerprint token ip).2 now other presented
    = validate_token st now other presented.
Proof.
  intros st e contestant fingerprint token ip now other presented.
  destruct (post_vote_effect st e contestant fingerprint token ip) as [->|[_ ->]];
    [reflexivity | apply record_vote_validate].
Qed.

Lemma has_voted_record (st : Server) (contestant fingerprint : string) :
  has_voted (db (record_vote st contestant fingerprint)) fingerprint contestant = true.
Proof.
  apply has_voted_ballots. rewrite record_vote_row, ballots_record.
  apply elem_of_app. right. apply list_elem_of_here.
Qed.

Lemma post_vote_recorded (st st' : Server) (e : Env)
    (contestant fingerprint token ip message : string) :
  post_vote st e contestant fingerprint token ip = (Recorded message, st') →
  rejection st e contestant fingerprint token ip = None
  ∧ st' = record_vote st contestant fingerprint.
Proof.
  unfold post_vote.
  destruct (rejection st e contestant fingerprint token ip) as [err|] eqn:Hr.
  - intros [= -> _]. destruct (rejection_keeps_state _ _ _ _ _ _ _ Hr) as [_ Hne].
    exfalso. exact (Hne message eq_refl).
  - intros [= _ <-]. split; reflexivity.
Qed.

(** X4.  Once a vote is recorded, the same device voting again for the
    same contestant, with a token that passes and the limiter letting it
    through, is answered Duplicate, from whatever address and at whatever
    time, and nothing is changed. *)
Theorem recorded_then_duplicate :
  ∀ (st st' : Server) (e e' : Env)
    (contestant fingerprint token token' ip ip' message : string),
    post_vote st e contestant fingerprint token ip = (Recorded message, st') →
    validate_token st (now_utc e') token' fingerprint = true →
    too_many e' ip' fingerprint = false →
    post_vote st' e' contestant fingerprint token' ip' = (Duplicate, st').
Proof.
  intros st st' e e' contestant fingerprint token token' ip ip' message Hrec Hvalid Hquiet.
  destruct (post_vote_recorded _ _ _ _ _ _ _ _ Hrec) as [_ ->].
  unfold post_vote, rejection.
  rewrite record_vote_validate, Hvalid, Hquiet, has_voted_record. reflexivity.
Qed.

Lemma recorded_then_duplicate_witness :
  post_vote after_vote (quiet 20 "cccc") "smith" "visitorlocal" "aaaa" "9.9.9.9"
  = (Duplicate, after_vote).
Proof.
  apply (recorded_then_duplicate after_token after_vote (quiet 10 "bbbb") (quiet 20 "cccc")
           "smith" "visitorlocal" "aaaa" "aaaa" "1.1.1.1" "9.9.9.9"
           "Vote recorded for smith!").
  - vm_compute. reflexivity.
  - vm_compute. reflexivity.
  - reflexivity.
Defined.

(** X5.  A recorded vote appends one pair (fingerprint, contestant) to
    the ledger, so it adds one vote to the count of its fingerprint and
    none to the count of any other; it is recorded only when the
    fingerprint had fewer than 3 votes and none for the contestant, and the
    answer names the contestant as it was sent. *)
Theorem recorded_vote_counts :
  ∀ (st st' : Server) (e : Env) (contestant fingerprint token ip message : string),
    post_vote st e contestant fingerprint token ip = (Recorded message, st') →
    message = "Vote recorded for " ++ contestant ++ "!"
    ∧ ballots (db st') = (ballots (db st) ++ [(fingerprint, contestant)])%list
    ∧ (∀ other, total_votes (db st') other
                = total_votes (db st) other
                  + if decide (fingerprint = other) then 1 else 0)%nat
    ∧ (total_votes (db st) fingerprint < 3)%nat
    ∧ has_voted (db st) fingerprint contestant = false
    ∧ has_voted (db st') fingerprint contestant = true.
Proof.
  intros st st' e contestant fingerprint token ip message Hrec.
  destruct (post_vote_recorded _ _ _ _ _ _ _ _ Hrec) as [Hnone ->].
  destruct (rejection_none _ _ _ _ _ _ Hnone) as (_ & _ & Hfresh & Hroom).
  split.
  { unfold post_vote in Hrec. rewrite Hnone in Hrec. congruence. }
  split; [rewrite record_vote_row; apply ballots_record|].
  split; [intros other; rewrite record_vote_row; apply total_votes_record|].
  split; [exact Hroom|]. split; [exact Hfresh | apply has_voted_record].
Qed.

Lemma recorded_vote_counts_witness :
  total_votes (db after_vote) "visitorlocal"
  = (total_votes (db after_token) "visitorlocal" + 1)%nat.
Proof.
  destruct (recorded_vote_counts after_token after_vote (quiet 10 "bbbb")
              "smith" "visitorlocal" "aaaa" "1.1.1.1" "Vote recorded for smith!")
    as (_ & _ & Hdev & _).
  - vm_compute. reflexivity.
  - rewrite (Hdev "visitorlocal"). rewrite decide_True by reflexivity. reflexivity.
Defined.

(** ** What the address check leaves alone *)

Lemma detect_ip_change_cases (cfg : Settings) (d : DB) (fingerprint ip : string) :
  detect_ip_change cfg d fingerprint ip = (Continue, d)
  ∨ (∃ session, find_session d fingerprint = Some session
       ∧ truthy (ip_address session) = true ∧ ip_address session ≠ Some ip
       ∧ ((MAX_IP_CHANGES_ALLOWED cfg ≤ ip_changes d fingerprint)%nat
          ∧ detect_ip_change cfg d fingerprint ip = (HTTP403, mark_suspicious d fingerprint)
          ∨ (ip_changes d fingerprint < MAX_IP_CHANGES_ALLOWED cfg)%nat
            ∧ detect_ip_change cfg d fingerprint ip
              = (Continue, add_ip_change_log d fingerprint (ip_address session) ip))).
Proof.
  unfold detect_ip_change.
  destruct (find_session d fingerprint) as [session|]; [|left; reflexivity].
  destruct (truthy (ip_address session)) eqn:Ht; simpl; [|left; reflexivity].
  case_bool_decide as Hsame; simpl; [left; reflexivity|].
  right. exists session. split; [reflexivity|]. split; [exact Ht|].
  split; [exact Hsame|].
  case_bool_decide as Hmany; [left | right]; split; auto; lia.
Qed.

Lemma mark_suspicious_session (d : DB) (fingerprint other : string) :
  find_session (mark_suspicious d fingerprint) other
  = if decide (fingerprint = other) then flag <$> find_session d other
    else find_session d other.
Proof.
  unfold find_session, mark_suspicious. simpl. case_decide as Heq.
  - subst other. apply lookup_alter_eq.
  - apply lookup_alter_ne. exact Heq.
Qed.

Lemma detect_ip_change_keeps (cfg : Settings) (d : DB) (fingerprint ip other : string) :
  (λ s, (votes_used s, ip_address s))
    <$> find_session (detect_ip_change cfg d fingerprint ip).2 other
  = (λ s, (votes_used s, ip_address s)) <$> find_session d other.
Proof.
  destruct (detect_ip_change_cases cfg d fingerprint ip)
    as [->|(session & _ & _ & _ & [[_ ->]|[_ ->]])]; simpl; auto.
  rewrite mark_suspicious_session. case_decide; [|reflexivity].
  destruct (find_session d other); reflexivity.
Qed.

(** X6.  The address check never writes the ledger or the tokens, and in
    no session does it change the count of votes or the stored address:
    the address a session is compared with stays the one it had. *)
Theorem detect_ip_change_frame :
  ∀ (cfg : Settings) (d : DB) (fingerprint ip : string),
    let after := (detect_ip_change cfg d fingerprint ip).2 in
    votes after = votes d
    ∧ tokens after = tokens d
    ∧ ∀ other,
        (λ s, (votes_used s, ip_address s)) <$> find_session after other
        = (λ s, (votes_used s, ip_address s)) <$> find_session d other.
Proof.
  intros cfg d fingerprint ip. cbv zeta.
  split; [|split; [|intros other; apply detect_ip_change_keeps]];
    destruct (detect_ip_change_cases cfg d fingerprint ip)
      as [->|(session & _ & _ & _ & [[_ ->]|[_ ->]])]; reflexivity.
Qed.

Lemma detect_ip_change_log_grows (cfg : Settings) (d : DB) (fingerprint ip other : string) :
  (ip_changes d other ≤ ip_changes (detect_ip_change cfg d fingerprint ip).2 other)%nat.
Proof.
  destruct (detect_ip_change_cases cfg d fingerprint ip)
    as [->|(session & _ & _ & _ & [[_ ->]|[_ ->]])]; simpl; [lia | unfold ip_changes; simpl; lia|].
  unfold ip_changes, add_ip_change_log. simpl. rewrite filter_app, length_app. lia.
Qed.

Lemma touches_frame (cfg : Settings) (reqs : list (string * string)) (d : DB) (other : string) :
  ip_address <$> find_session (touches cfg d reqs) other = ip_address <$> find_session d other
  ∧ (ip_changes d other ≤ ip_changes (touches cfg d reqs) other)%nat.
Proof.
  revert d. induction reqs as [|[fingerprint ip] reqs IH]; intros d; simpl.
  - split; [reflexivity | lia].
  - destruct (IH (detect_ip_change cfg d fingerprint ip).2) as [Haddr Hlog].
    pose proof (detect_ip_change_keeps cfg d fingerprint ip other) as Hsess.
    pose proof (detect_ip_change_log_grows cfg d fingerprint ip other) as Hgrow.
    split; [|lia]. rewrite Haddr.
    destruct (find_session (detect_ip_change cfg d fingerprint ip).2 other),
             (find_session d other); simpl in *; congruence.
Qed.

(** X7.  A touch that is answered 403 is answered 403 again after any
    further address checks, for this or for other fingerprints: the stored
    address is not moved to the new one and the log does not shrink, so the
    address stays blocked. *)
Theorem blocked_address_stays_blocked :
  ∀ (cfg : Settings) (d : DB) (fingerprint ip : string) (reqs : list (string * string)),
    (detect_ip_change cfg d fingerprint ip).1 = HTTP403 →
    (detect_ip_change cfg
       (touches cfg (detect_ip_change cfg d fingerprint ip).2 reqs) fingerprint ip).1
    = HTTP403.
Proof.
  intros cfg d fingerprint ip reqs Hblocked.
  destruct (detect_ip_change_cases cfg d fingerprint ip)
    as [Hgo|(session & Hs & Htruthy & Hdiff & [[Hmany Hrun]|[_ Hrun]])];
    rewrite ?Hgo, ?Hrun in Hblocked; try discriminate.
  rewrite Hrun. cbn [snd].
  destruct (touches_frame cfg reqs (mark_suspicious d fingerprint) fingerprint)
    as [Haddr Hlog].
  rewrite mark_suspicious_session, decide_True, Hs in Haddr by reflexivity.
  simpl in Haddr.
  assert (ip_changes (mark_suspicious d fingerprint) fingerprint = ip_changes d fingerprint)
    as Hsame by reflexivity.
  unfold detect_ip_change.
  destruct (find_session (touches cfg (mark_suspicious d fingerprint) reqs) fingerprint)
    as [later|]; [|discriminate].
  simpl in Haddr. injection Haddr as Haddr. rewrite Haddr, Htruthy. simpl.
  rewrite bool_decide_eq_false_2 by exact Hdiff. simpl.
  rewrite bool_decide_eq_true_2 by lia. reflexivity.
Qed.

Lemma blocked_address_stays_blocked_witness :
  (detect_ip_change settings
     (touches settings
        (detect_ip_change settings (seen_at "2.2.2.2" [home_to_work] false) "fp1" "3.3.3.3").2
        [("fp1", "2.2.2.2"); ("fp1", "4.4.4.4")])
     "fp1" "3.3.3.3").1
  = HTTP403.
Proof.
  apply (blocked_address_stays_blocked settings (seen_at "2.2.2.2" [home_to_work] false)
           "fp1" "3.3.3.3" [("fp1", "2.2.2.2"); ("fp1", "4.4.4.4")]).
  vm_compute. reflexivity.
Defined.

(** X8.  The log never holds more changes of a fingerprint than
    MAX_IP_CHANGES_ALLOWED, unless it held more to begin with: the change
    that would pass the limit is rejected unlogged. *)
Theorem logged_changes_bounded :
  ∀ (cfg : Settings) (reqs : list (string * string)) (d : DB) (fingerprint : string),
    (ip_changes (touches cfg d reqs) fingerprint
     ≤ Nat.max (ip_changes d fingerprint) (MAX_IP_CHANGES_ALLOWED cfg))%nat.
Proof.
  intros cfg reqs. induction reqs as [|[device ip] reqs IH]; intros d fingerprint; simpl.
  - lia.
  - specialize (IH (detect_ip_change cfg d device ip).2 fingerprint).
    assert (ip_changes (detect_ip_change cfg d device ip).2 fingerprint
            ≤ Nat.max (ip_changes d fingerprint) (MAX_IP_CHANGES_ALLOWED cfg))%nat; [|lia].
    destruct (detect_ip_change_cases cfg d device ip)
      as [->|(session & _ & _ & _ & [[_ ->]|[Hfew ->]])]; simpl;
      [lia | unfold ip_changes; simpl; lia|].
    unfold ip_changes, add_ip_change_log in *. simpl.
    rewrite filter_app, length_app, filter_cons. simpl.
    case_decide as Heq; simpl; [subst device; lia | lia].
Qed.

(** X9.  A touch from the stored address, or of a session that has no
    address stored (none, or an empty one), is let through and changes
    nothing, however many changes are logged for the fingerprint. *)
Theorem same_or_no_address_passes :
  ∀ (cfg : Settings) (d : DB) (fingerprint ip : string) (session : VoteSession),
    find_session d fingerprint = Some session →
    ip_address session = Some ip ∨ ip_address session = None
    ∨ ip_address session = Some EmptyString →
    detect_ip_change cfg d fingerprint ip = (Continue, d).
Proof.
  intros cfg d fingerprint ip session Hs Haddr. unfold detect_ip_change. rewrite Hs.
  destruct Haddr as [->|[->| ->]]; simpl; [|reflexivity..].
  rewrite (bool_decide_eq_true_2 (Some ip = Some ip)) by reflexivity.
  rewrite andb_false_r. reflexivity.
Qed.

Lemma same_or_no_address_passes_witness :
  detect_ip_change settings (seen_at "2.2.2.2" [home_to_work; home_to_work] false)
    "fp1" "2.2.2.2"
  = (Continue, seen_at "2.2.2.2" [home_to_work; home_to_work] false).
Proof.
  apply (same_or_no_address_passes settings _ "fp1" "2.2.2.2"
           {| votes_used := 0; ip_address := Some "2.2.2.2"; is_suspicious := false |}).
  - vm_compute. reflexivity.
  - left. reflexivity.
Defined.

(** ** What a token request leaves alone *)

(** X10.  A token request writes neither the ledger nor the log of
    address changes and leaves the session of every other fingerprint as
    it was; the session of the requesting fingerprint is kept as it was
    when there is one, count, stored address and flag included, and is
    created with no vote, no address and no flag when there is none. *)
Theorem get_token_frame :
  ∀ (sha256 : string → string) (st : Server) (e : Env)
    (visitor_id local_id ip ua : string),
    let device := sha256 (visitor_id ++ local_id) in
    let after := db (get_token sha256 st e visitor_id local_id ip ua).2 in
    votes after = votes (db st)
    ∧ ip_change_logs after = ip_change_logs (db st)
    ∧ (∀ other, other ≠ device → find_session after other = find_session (db st) other)
    ∧ find_session after device
      = Some (default {| votes_used := 0; ip_address := None; is_suspicious := false |}
                (find_session (db st) device)).
Proof.
  intros sha256 st e visitor_id local_id ip ua device after. subst after.
  split; [apply get_token_votes|].
  split.
  { unfold get_token. simpl. fold device.
    destruct (find_session (db st) device); reflexivity. }
  unfold find_session. rewrite get_token_sessions. fold device.
  destruct (find_session (db st) device) as [s|] eqn:Hs; unfold find_session in Hs.
  - split; [reflexivity|]. rewrite Hs. reflexivity.
  - split.
    + intros other Hne. apply lookup_insert_ne. congruence.
    + rewrite Hs. simpl. apply lookup_insert_eq.
Qed.

(** * The client *)

(** ** The identifiers of the device *)

Lemma truthy_some (s : string) : truthy (Some s) = true ↔ s ≠ EmptyString.
Proof.
  unfold truthy. rewrite negb_true_iff, bool_decide_eq_false. reflexivity.
Qed.

(** X11.  Once [getLocalId] has returned an id that is not empty, the
    service returns that id at every later call, whatever localStorage then
    holds and whatever would be drawn, and does not write localStorage:
    the item removed or changed meanwhile is neither noticed nor put
    back. *)
Theorem getLocalId_cached :
  ∀ (svc svc' : Device.FingerprintService) (b b' later : Device.Browser)
    (r r' : Device.Readings) (id : string),
    Device.getLocalId svc b r = (id, svc', b') →
    id ≠ EmptyString →
    Device.getLocalId svc' later r' = (id, svc', later).
Proof.
  intros svc svc' b b' later r r' id Hcall Hid.
  assert (Device.localId svc' = Some id) as Hcached.
  { unfold Device.getLocalId in Hcall.
    destruct (truthy (Device.localId svc)) eqn:Hc.
    - destruct (Device.localId svc) as [x|] eqn:Hx; [|discriminate].
      simpl in Hcall. injection Hcall as <- <- _. exact Hx.
    - destruct (truthy (Device.local_id_item b)); injection Hcall as <- <- _; reflexivity. }
  unfold Device.getLocalId. rewrite Hcached.
  rewrite (proj2 (truthy_some id) Hid). reflexivity.
Qed.

Lemma getLocalId_cached_witness :
  Device.getLocalId
    {| Device.fpPromise := None; Device.visitorId := None; Device.localId := Some "u-1" |}
    {| Device.local_id_item := None; Device.loads := 0 |}
    {| Device.load := Device.Agent; Device.get := Client.Returned "v"; Device.uuidv4 := "u-2" |}
  = ("u-1",
     {| Device.fpPromise := None; Device.visitorId := None; Device.localId := Some "u-1" |},
     {| Device.local_id_item := None; Device.loads := 0 |}).
Proof.
  apply (getLocalId_cached Device.created _
           {| Device.local_id_item := None; Device.loads := 0 |}
           {| Device.local_id_item := Some "u-1"; Device.loads := 0 |} _
           {| Device.load := Device.Agent; Device.get := Client.Returned "v";
              Device.uuidv4 := "u-1" |}).
  - reflexivity.
  - discriminate.
Defined.


Lemma getVisitorId_loads (svc : Device.FingerprintService) (b : Device.Browser)
    (r : Device.Readings) :
  Device.fpPromise (Device.getVisitorId svc b r).1.2 = Device.fpPromise svc
  ∧ Device.loads (Device.getVisitorId svc b r).2 = Device.loads b
  ∨ Device.fpPromise svc = None
    ∧ Device.fpPromise (Device.getVisitorId svc b r).1.2 = Some (Device.load r)
    ∧ Device.loads (Device.getVisitorId svc b r).2 = S (Device.loads b).
Proof.
  unfold Device.getVisitorId, Device.initialize.
  destruct (truthy (Device.visitorId svc)); [left; auto|].
  destruct (Device.fpPromise svc) as [p|] eqn:Hp; simpl.
  - left. destruct p; [destruct (Device.get r)|]; simpl; rewrite ?Hp; auto.
  - right. destruct (Device.load r); [destruct (Device.get r)|]; simpl; rewrite ?Hp; auto.
Qed.

Lemma visits_loads (rs : list Device.Readings) (svc : Device.FingerprintService)
    (b : Device.Browser) :
  (Device.loads b ≤ Device.loads (Device.visits svc b rs).2
   ≤ Device.loads b + match Device.fpPromise svc with Some _ => 0 | None => 1 end)%nat.
Proof.
  revert svc b. induction rs as [|r rs IH]; intros svc b; simpl.
  - destruct (Device.fpPromise svc); lia.
  - pose proof (getVisitorId_loads svc b r) as Hfirst.
    destruct (Device.getVisitorId svc b r) as [[answer svc1] b1]. simpl in Hfirst.
    specialize (IH svc1 b1).
    destruct (Device.visits svc1 b1 rs) as [[answers svc2] b2]. simpl in *.
    destruct Hfirst as [[Hp Hl]|(Hnone & Hp & Hl)].
    + rewrite Hp, Hl in IH. exact IH.
    + rewrite Hp, Hl in IH. rewrite Hnone. lia.
Qed.

(** X13.  However often the visitor id is asked for, the fingerprinting
    library is loaded at most once more, and not at all once the service
    holds its promise. *)
Theorem agent_loaded_at_most_once :
  ∀ (rs : list Device.Readings) (svc : Device.FingerprintService) (b : Device.Browser),
    (Device.loads b ≤ Device.loads (Device.visits svc b rs).2 ≤ S (Device.loads b))%nat
    ∧ (is_Some (Device.fpPromise svc)
       → Device.loads (Device.visits svc b rs).2 = Device.loads b).
Proof.
  intros rs svc b. pose proof (visits_loads rs svc b) as Hl. split.
  - destruct (Device.fpPromise svc); lia.
  - intros [p Hp]. rewrite Hp in Hl. lia.
Qed.

(** X14.  Once [getVisitorId] has returned an id that is not empty, every
    later call returns that id, whatever the agent would then give, and
    changes neither the service nor the browser. *)
Theorem getVisitorId_cached :
  ∀ (svc svc' : Device.FingerprintService) (b b' later : Device.Browser)
    (r r' : Device.Readings) (id : string),
    Device.getVisitorId svc b r = (Client.Returned id, svc', b') →
    id ≠ EmptyString →
    Device.getVisitorId svc' later r' = (Client.Returned id, svc', later).
Proof.
  intros svc svc' b b' later r r' id Hcall Hid.
  assert (Device.visitorId svc' = Some id) as Hcached.
  { unfold Device.getVisitorId in Hcall.
    destruct (truthy (Device.visitorId svc)) eqn:Hc.
    - destruct (Device.visitorId svc) as [x|] eqn:Hx; [|discriminate].
      simpl in Hcall. injection Hcall as <- <- _. exact Hx.
    - destruct (Device.initialize svc b r) as [svc1 b1].
      destruct (default (Device.load r) (Device.fpPromise svc1)); [|discriminate].
      destruct (Device.get r); [|discriminate].
      injection Hcall as <- <- _. reflexivity. }
  unfold Device.getVisitorId. rewrite Hcached.
  rewrite (proj2 (truthy_some id) Hid). reflexivity.
Qed.

Lemma getVisitorId_cached_witness :
  Device.getVisitorId
    {| Device.fpPromise := Some Device.Agent; Device.visitorId := Some "v-1";
       Device.localId := None |}
    {| Device.local_id_item := None; Device.loads := 7 |}
    {| Device.load := Device.LoadFailed "offline"; Device.get := Client.Returned "v-2";
       Device.uuidv4 := "u" |}
  = (Client.Returned "v-1",
     {| Device.fpPromise := Some Device.Agent; Device.visitorId := Some "v-1";
        Device.localId := None |},
     {| Device.local_id_item := None; Device.loads := 7 |}).
Proof.
  apply (getVisitorId_cached Device.created _
           {| Device.local_id_item := None; Device.loads := 0 |}
           {| Device.local_id_item := None; Device.loads := 1 |} _
           {| Device.load := Device.Agent; Device.get := Client.Returned "v-1";
              Device.uuidv4 := "u" |}).
  - reflexivity.
  - discriminate.
Defined.

Lemma visits_load_failed (rs : list Device.Readings) (svc : Device.FingerprintService)
    (b : Device.Browser) (message : string) :
  Device.fpPromise svc = Some (Device.LoadFailed message) →
  truthy (Device.visitorId svc) = false →
  Forall (λ answer, answer = Client.Thrown message) (Device.visits svc b rs).1.1.
Proof.
  revert svc b. induction rs as [|r rs IH]; intros svc b Hp Hv; simpl; [constructor|].
  assert (Device.getVisitorId svc b r = (Client.Thrown message, svc, b)) as ->.
  { unfold Device.getVisitorId, Device.initialize. rewrite Hv, Hp. simpl.
    rewrite Hp. reflexivity. }
  specialize (IH svc b Hp Hv).
  destruct (Device.visits svc b rs) as [[answers svc2] b2]. simpl in *.
  constructor; [reflexivity | exact IH].
Qed.

(** X15.  A load of the fingerprinting library that fails is not tried
    again: on a page where the first call of [getVisitorId] finds the
    load rejected, that call and every later one throw the error of that
    load, whatever the library would do later. *)
Theorem failed_load_is_kept :
  ∀ (b : Device.Browser) (r : Device.Readings) (rs : list Device.Readings)
    (message : string),
    Device.load r = Device.LoadFailed message →
    Forall (λ answer, answer = Client.Thrown message)
      (Device.visits Device.created b (r :: rs)).1.1.
Proof.
  intros b r rs message Hload. simpl.
  assert (Device.getVisitorId Device.created b r
          = (Client.Thrown message,
             {| Device.fpPromise := Some (Device.LoadFailed message);
                Device.visitorId := None; Device.localId := None |},
             {| Device.local_id_item := Device.local_id_item b;
                Device.loads := S (Device.loads b) |})) as ->.
  { unfold Device.getVisitorId, Device.initialize. simpl. rewrite Hload. reflexivity. }
  pose proof (visits_load_failed rs
                {| Device.fpPromise := Some (Device.LoadFailed message);
                   Device.visitorId := None; Device.localId := None |}
                {| Device.local_id_item := Device.local_id_item b;
                   Device.loads := S (Device.loads b) |} message eq_refl eq_refl) as Hrest.
  destruct (Device.visits _ _ rs) as [[answers svc2] b2]. simpl in *.
  constructor; [reflexivity | exact Hrest].
Qed.

Lemma failed_load_is_kept_witness :
  Forall (λ answer, answer = Client.Thrown "blocked")
    (Device.visits Device.created {| Device.local_id_item := None; Device.loads := 0 |}
       [ {| Device.load := Device.LoadFailed "blocked"; Device.get := Client.Returned "v";
            Device.uuidv4 := "u" |};
         {| Device.load := Device.Agent; Device.get := Client.Returned "v";
            Device.uuidv4 := "u" |} ]).1.1.
Proof.
  apply (failed_load_is_kept _ _ _ "blocked"). reflexivity.
Defined.


(** ** The stored session of the client *)

(** X17.  When the write to localStorage goes through, whatever
    [ensureValidToken] returns is what localStorage holds afterwards; when
    the write fails, localStorage is what it was, and the session returned
    is either the stored one or the one just fetched, which is then
    returned without being stored.  When [ensureValidToken] throws,
    localStorage is what it was. *)
Theorem ensureValidToken_storage :
  ∀ (getTime : string → option Z) (store : Client.Storage) (now : Z)
    (fetched : Client.Fetched) (written : bool),
    match Client.ensureValidToken getTime store now fetched written with
    | (Client.Returned session, store') =>
        (written = true → Client.getSession store' = Some session)
        ∧ (written = false → store' = store)
        ∧ (Client.getSession store' = Some session
           ∨ ∃ tokenData, fetched = Client.FetchOk tokenData
                          ∧ session = Client.session_of tokenData)
    | (Client.Thrown _, store') => store' = store
    end.
Proof.
  intros getTime store now fetched written.
  unfold Client.ensureValidToken, Client.initializeToken, Client.getSession, Client.setSession.
  destruct store as [session|]; simpl.
  - destruct (Client.isTokenExpired getTime now (Client.s_expires_at session)).
    + destruct fetched as [detail|tokenData]; [reflexivity|].
      destruct written; (split; [|split]); try discriminate; try reflexivity; eauto.
    + split; [|split]; auto.
  - destruct fetched as [detail|tokenData]; [reflexivity|].
    destruct written; (split; [|split]); try discriminate; try reflexivity; eauto.
Qed.

(** X18.  Expiry is monotone in time: a stored expiry that counts as
    expired at one time counts as expired at every later time. *)
Theorem isTokenExpired_monotone :
  ∀ (getTime : string → option Z) (expiresAt : option string) (now later : Z),
    now ≤ later →
    Client.isTokenExpired getTime now expiresAt = true →
    Client.isTokenExpired getTime later expiresAt = true.
Proof.
  intros getTime expiresAt now later Hle. rewrite !isTokenExpired_lapsing.
  intros [->|[->|(s & t & -> & Ht & Hnear)]]; [left; reflexivity | right; left; reflexivity|].
  right. right. exists s, t. repeat split; [exact Ht | lia].
Qed.

Lemma isTokenExpired_monotone_witness :
  Client.isTokenExpired (λ _, Some 100000) 80000 (Some "2025-11-05T15:00:00Z") = true.
Proof.
  apply (isTokenExpired_monotone (λ _, Some 100000) (Some "2025-11-05T15:00:00Z") 70000 80000).
  - lia.
  - reflexivity.
Defined.

(** X19.  A stored expiry that is not empty and that [Date] cannot read
    never counts as expired: at every time [ensureValidToken] returns the
    stored session and fetches nothing. *)
Theorem unreadable_expiry_never_refreshes :
  ∀ (getTime : string → option Z) (session : Client.SessionData) (text : string)
    (now : Z) (fetched : Client.Fetched) (written : bool),
    Client.s_expires_at session = Some text →
    text ≠ EmptyString →
    getTime text = None →
    Client.ensureValidToken getTime (Some session) now fetched written
    = (Client.Returned session, Some session).
Proof.
  intros getTime session text now fetched written Htext Hne Hnan.
  unfold Client.ensureValidToken, Client.getSession, Client.isTokenExpired.
  rewrite Htext, bool_decide_eq_false_2 by exact Hne. rewrite Hnan. reflexivity.
Qed.

Lemma unreadable_expiry_never_refreshes_witness :
  Client.ensureValidToken (λ _, None)
    (Some {| Client.s_token := Some "aaaa"; Client.s_fingerprint := Some "fp1";
             Client.s_expires_at := Some "soon"; Client.s_votes_used := 0;
             Client.s_votes_used_from_ip := 0; Client.s_is_suspicious := false |})
    5 (Client.FetchFailed "offline") true
  = (Client.Returned
       {| Client.s_token := Some "aaaa"; Client.s_fingerprint := Some "fp1";
          Client.s_expires_at := Some "soon"; Client.s_votes_used := 0;
          Client.s_votes_used_from_ip := 0; Client.s_is_suspicious := false |},
     Some {| Client.s_token := Some "aaaa"; Client.s_fingerprint := Some "fp1";
             Client.s_expires_at := Some "soon"; Client.s_votes_used := 0;
             Client.s_votes_used_from_ip := 0; Client.s_is_suspicious := false |}).
Proof.
  apply (unreadable_expiry_never_refreshes (λ _, None) _ "soon" 5
           (Client.FetchFailed "offline") true).
  - reflexivity.
  - discriminate.
  - reflexivity.
Defined.

(** ** The requests of the page *)

(** Case analysis on every scrutinee of the goal. *)
Ltac split_cases :=
  repeat match goal with
         | |- context [match ?x with _ => _ end] => destruct x eqn:?
         end.

Section Page_requests.

Variable server : list Page.Request → Page.Reply.
Variable setItem_ok : list Page.Request → bool.
Variable now : Z.
Variable getTime : string → option Z.
Variable trim : string → string.
Variable grecaptcha : bool.
Variable null_read : string.

Lemma sent_since_refl (w : Page.World) : sent_since w w [].
Proof. unfold sent_since. rewrite app_nil_r. reflexivity. Qed.

Lemma sent_since_trans (w1 w2 w3 : Page.World) (new1 new2 : list Page.Request) :
  sent_since w1 w2 new1 → sent_since w2 w3 new2 → sent_since w1 w3 (new1 ++ new2).
Proof. unfold sent_since. intros H1 H2. rewrite H2, H1, app_assoc. reflexivity. Qed.

Lemma initializeToken_sent (ids : Device.Identifiers) (w : Page.World) :
  sent_since w (Page.initializeToken server setItem_ok ids w).2
    [Page.GetToken (Device.id_visitorId ids) (Device.id_localId ids)].
Proof.
  unfold Page.initializeToken, Page.fetch, sent_since. simpl.
  destruct (Client.initializeToken _ _ _). reflexivity.
Qed.

Lemma ensureValidToken_sent (ids : Device.Identifiers) (w : Page.World) :
  ∃ new, sent_since w (Page.ensureValidToken server setItem_ok now getTime ids w).2 new ∧ no_vote new.
Proof.
  unfold Page.ensureValidToken.
  destruct (Client.getSession (Page.store w)) as [session|].
  - destruct (Client.isTokenExpired getTime now (Client.s_expires_at session)).
    + eexists. split; [apply initializeToken_sent|]. repeat constructor.
    + exists []. split; [apply sent_since_refl | constructor].
  - eexists. split; [apply initializeToken_sent|]. repeat constructor.
Qed.

Lemma loadRecaptchaSiteKey_sent (u : Page.UI) (w : Page.World) :
  sent_since w (Page.loadRecaptchaSiteKey server u w).2 [Page.GetSiteKey].
Proof. reflexivity. Qed.

Lemma reset_widget_sent (ui : Page.UI) (w : Page.World) :
  Page.sent (Page.reset_widget grecaptcha ui w) = Page.sent w.
Proof.
  unfold Page.reset_widget. destruct (Page.recaptchaWidgetId ui); [|reflexivity].
  destruct grecaptcha; reflexivity.
Qed.

Lemma maybe_load_sent (b : bool) (u : Page.UI) (w : Page.World) :
  ∃ new, sent_since w (if b then Page.loadRecaptchaSiteKey server u w else (u, w)).2 new
         ∧ no_vote new.
Proof.
  destruct b.
  - eexists. split; [apply loadRecaptchaSiteKey_sent|]. repeat constructor.
  - exists []. split; [apply sent_since_refl | constructor].
Qed.

Lemma no_vote_get_token (visitorId localId : string) :
  no_vote [Page.GetToken visitorId localId].
Proof. repeat constructor. Qed.

Lemma sent_since_reset (ui : Page.UI) (w w1 : Page.World) (new : list Page.Request) :
  sent_since w w1 new → sent_since w (Page.reset_widget grecaptcha ui w1) new.
Proof. unfold sent_since. rewrite reset_widget_sent. auto. Qed.

Lemma sent_if_reset (b : bool) (ui : Page.UI) (w : Page.World) :
  Page.sent (if b then Page.reset_widget grecaptcha ui w else w) = Page.sent w.
Proof. destruct b; [apply reset_widget_sent | reflexivity]. Qed.

Lemma recover_sent (ui : Page.UI) (message : string) (u : Page.UI) (w : Page.World) :
  ∃ new, sent_since w (Page.recover server setItem_ok grecaptcha ui message u w).2 new ∧ no_vote new.
Proof.
  unfold Page.recover.
  match goal with |- context [if ?c then _ else _] => destruct c end.
  - destruct (Page.identifiers ui) as [ids|].
    + pose proof (initializeToken_sent ids w) as Hi.
      destruct (Page.initializeToken server setItem_ok ids w) as [[updated|failure] w1]; simpl in Hi.
      * destruct (Client.s_is_suspicious updated).
        -- match goal with |- context [if ?c then Page.loadRecaptchaSiteKey _ ?u0 _ else _] =>
             destruct (maybe_load_sent c u0 w1) as (new & Hn & Hv);
             destruct (if c then Page.loadRecaptchaSiteKey server u0 w1 else (u0, w1))
               as [u2 w2]
           end.
           simpl in *. eexists. split; [exact (sent_since_trans _ _ _ _ _ Hi Hn)|].
           apply Forall_app. split; [apply no_vote_get_token | exact Hv].
        -- eexists. split; [apply sent_since_reset, Hi | apply no_vote_get_token].
      * eexists. split; [apply sent_since_reset, Hi | apply no_vote_get_token].
    + exists []. split; [apply sent_since_reset, sent_since_refl | constructor].
  - match goal with |- context [if ?c then _ else _] => destruct c end.
    + destruct (Page.identifiers ui) as [ids|].
      * pose proof (initializeToken_sent ids w) as Hi.
        destruct (Page.initializeToken server setItem_ok ids w) as [[updated|failure] w1]; simpl in *;
          eexists; (split; [exact Hi | apply no_vote_get_token]).
      * exists []. split; [apply sent_since_refl | constructor].
    + exists []. split; [apply sent_since_refl | constructor].
Qed.

(** The vote that a submission posts for a session. *)
Lemma attempt_sent (ui u : Page.UI) (w : Page.World) :
  ∃ new,
    sent_since w
      (Page.attempt server setItem_ok now getTime grecaptcha null_read ui u w).2 new
    ∧ match Page.identifiers ui with
      | None => new = []
      | Some ids =>
          match Page.ensureValidToken server setItem_ok now getTime ids w with
          | (Client.Thrown _, _) => no_vote new
          | (Client.Returned session, _) =>
              if negb (Client.s_is_suspicious session) || truthy (Page.recaptchaToken ui)
              then ∃ before,
                     new = (before
                            ++ [Page.vote_request (Page.contestant ui)
                                  (Client.s_fingerprint session) (Client.s_token session)
                                  (if Client.s_is_suspicious session
                                   then Page.recaptchaToken ui else None)])%list
                     ∧ no_vote before
              else no_vote new
          end
      end.
Proof.
  unfold Page.attempt.
  destruct (Page.identifiers ui) as [ids|];
    [|exists []; split; [apply sent_since_refl | reflexivity]].
  destruct (ensureValidToken_sent ids w) as (new1 & H1 & Hv1).
  destruct (Page.ensureValidToken server setItem_ok now getTime ids w)
    as [[session|failure] w1];
    simpl in H1; [|exists new1; split; [exact H1 | exact Hv1]].
  destruct (Client.s_is_suspicious session) eqn:Hflag; cbn [negb orb].
  - match goal with |- context [if ?c then Page.loadRecaptchaSiteKey _ ?u0 _ else _] =>
      destruct (maybe_load_sent c u0 w1) as (new2 & H2 & Hv2);
      destruct (if c then Page.loadRecaptchaSiteKey server u0 w1 else (u0, w1)) as [u2 w2]
    end.
    simpl in H2.
    pose proof (sent_since_trans _ _ _ _ _ H1 H2) as H12.
    assert (no_vote (new1 ++ new2)) as Hv12 by (apply Forall_app; auto).
    destruct (truthy (Page.recaptchaToken ui)) eqn:Hproof; simpl.
    + unfold Page.submitVote, Page.fetch.
      match goal with |- context [Page.vote_result ?r] => destruct (Page.vote_result r) as [result|failure] end.
      * exists ((new1 ++ new2) ++ [Page.vote_request (Page.contestant ui)
                  (Client.s_fingerprint session) (Client.s_token session)
                  (Page.recaptchaToken ui)])%list.
        split.
        { destruct (default false (Page.success result));
            [|destruct (default false (Page.requires_verification result))];
            unfold sent_since in *; cbn [snd]; rewrite ?sent_if_reset; cbn [Page.sent];
            rewrite H12, <- ?app_assoc; reflexivity. }
        exists (new1 ++ new2)%list. split; [reflexivity | exact Hv12].
      * exists ((new1 ++ new2) ++ [Page.vote_request (Page.contestant ui)
                  (Client.s_fingerprint session) (Client.s_token session)
                  (Page.recaptchaToken ui)])%list.
        split; [unfold sent_since in *; cbn [snd Page.sent];
                rewrite H12, <- ?app_assoc; reflexivity|].
        exists (new1 ++ new2)%list. split; [reflexivity | exact Hv12].
    + exists (new1 ++ new2)%list. split; [exact H12 | exact Hv12].
  - simpl. unfold Page.submitVote, Page.fetch.
    match goal with |- context [Page.vote_result ?r] => destruct (Page.vote_result r) as [result|failure] end.
    + exists (new1 ++ [Page.vote_request (Page.contestant ui)
                (Client.s_fingerprint session) (Client.s_token session) None])%list.
      split.
      { destruct (default false (Page.success result));
          [|destruct (default false (Page.requires_verification result))];
          unfold sent_since in *; cbn [snd]; rewrite ?sent_if_reset; cbn [Page.sent];
          rewrite H1, <- ?app_assoc; reflexivity. }
      exists new1. split; [reflexivity | exact Hv1].
    + exists (new1 ++ [Page.vote_request (Page.contestant ui)
                (Client.s_fingerprint session) (Client.s_token session) None])%list.
      split; [unfold sent_since in *; cbn [snd Page.sent];
              rewrite H1, <- ?app_assoc; reflexivity|].
      exists new1. split; [reflexivity | exact Hv1].
Qed.

(** X20.  One submission posts at most one vote, whatever the server
    answers.  The vote is posted exactly when the name typed is not blank
    once trimmed, the identifiers are set, [ensureValidToken] returns a
    session and, that session being flagged, the render holds a reCAPTCHA
    token; it is for the contestant as typed (not trimmed), with the
    fingerprint and the token of the session that [ensureValidToken]
    returned, and carries the reCAPTCHA token of the render when that
    session is flagged and none when it is not.  Every other request of
    the submission asks for a token or for the site key, so a vote that
    fails is never posted again by the handler. *)
Theorem handleSubmit_posts_the_session_vote :
  ∀ (ui : Page.UI) (w : Page.World),
    ∃ new,
      sent_since w
        (Page.handleSubmit server setItem_ok now getTime trim grecaptcha null_read ui w).2
        new
      ∧ match Page.identifiers ui with
        | None => no_vote new
        | Some ids =>
            match Page.ensureValidToken server setItem_ok now getTime ids w with
            | (Client.Thrown _, _) => no_vote new
            | (Client.Returned session, _) =>
                if truthy (Some (trim (Page.contestant ui)))
                   && (negb (Client.s_is_suspicious session)
                       || truthy (Page.recaptchaToken ui))
                then ∃ before after,
                       new = (before
                              ++ [Page.vote_request (Page.contestant ui)
                                    (Client.s_fingerprint session) (Client.s_token session)
                                    (if Client.s_is_suspicious session
                                     then Page.recaptchaToken ui else None)]
                              ++ after)%list
                       ∧ no_vote before ∧ no_vote after
                else no_vote new
            end
        end.
Proof.
  intros ui w. unfold Page.handleSubmit.
  destruct (truthy (Some (trim (Page.contestant ui)))); cbn [negb andb].
  2:{ exists []. split; [apply sent_since_refl|].
      destruct (Page.identifiers ui) as [ids|]; [|constructor].
      destruct (Page.ensureValidToken server setItem_ok now getTime ids w) as [[session|failure] w1];
        constructor. }
  destruct (attempt_sent ui (Page.setMessageType EmptyString (Page.setMessage None ui)) w)
    as (new1 & H1 & Hvote).
  destruct (Page.attempt server setItem_ok now getTime grecaptcha null_read ui
              (Page.setMessageType EmptyString (Page.setMessage None ui)) w)
    as [[thrown u1] w1].
  simpl in H1.
  assert (∃ new2, sent_since w1
            (match thrown with
             | Some message => Page.recover server setItem_ok grecaptcha ui message u1 w1
             | None => (u1, w1)
             end).2 new2 ∧ no_vote new2) as (new2 & H2 & Hv2).
  { destruct thrown as [message|]; [apply recover_sent|].
    exists []. split; [apply sent_since_refl | constructor]. }
  destruct (match thrown with
            | Some message => Page.recover server setItem_ok grecaptcha ui message u1 w1
            | None => (u1, w1)
            end) as [u2 w2].
  cbn [snd] in *. exists (new1 ++ new2)%list.
  split; [exact (sent_since_trans _ _ _ _ _ H1 H2)|].
  destruct (Page.identifiers ui) as [ids|].
  2:{ subst new1. exact Hv2. }
  destruct (Page.ensureValidToken server setItem_ok now getTime ids w) as [[session|failure] w0].
  2:{ apply Forall_app. auto. }
  destruct (negb (Client.s_is_suspicious session) || truthy (Page.recaptchaToken ui)).
  - destruct Hvote as (before & -> & Hbefore).
    exists before, new2. rewrite <- app_assoc. auto.
  - apply Forall_app. auto.
Qed.

Lemma same_fixed_refl (u : Page.UI) : same_fixed u u.
Proof. repeat split. Qed.

Lemma same_fixed_trans (u1 u2 u3 : Page.UI) :
  same_fixed u1 u2 → same_fixed u2 u3 → same_fixed u1 u3.
Proof. unfold same_fixed. intros (? & ? & ?) (? & ? & ?). repeat split; congruence. Qed.

Lemma loadRecaptchaSiteKey_fixed (u : Page.UI) (w : Page.World) :
  same_fixed u (Page.loadRecaptchaSiteKey server u w).1
  ∧ Page.submitting (Page.loadRecaptchaSiteKey server u w).1 = Page.submitting u
  ∧ Page.votesRemaining (Page.loadRecaptchaSiteKey server u w).1 = Page.votesRemaining u
  ∧ Page.contestant (Page.loadRecaptchaSiteKey server u w).1 = Page.contestant u
  ∧ Page.isSuspicious (Page.loadRecaptchaSiteKey server u w).1 = Page.isSuspicious u.
Proof.
  unfold Page.loadRecaptchaSiteKey, Page.fetch, same_fixed.
  split_cases; simpl; auto.
Qed.

Lemma maybe_load_fixed (b : bool) (u : Page.UI) (w : Page.World) :
  same_fixed u (if b then Page.loadRecaptchaSiteKey server u w else (u, w)).1
  ∧ Page.submitting (if b then Page.loadRecaptchaSiteKey server u w else (u, w)).1
    = Page.submitting u
  ∧ Page.votesRemaining (if b then Page.loadRecaptchaSiteKey server u w else (u, w)).1
    = Page.votesRemaining u
  ∧ Page.contestant (if b then Page.loadRecaptchaSiteKey server u w else (u, w)).1
    = Page.contestant u
  ∧ Page.isSuspicious (if b then Page.loadRecaptchaSiteKey server u w else (u, w)).1
    = Page.isSuspicious u.
Proof.
  destruct b; [apply loadRecaptchaSiteKey_fixed|]. simpl. repeat split.
Qed.

Lemma recover_fixed (ui : Page.UI) (message : string) (u : Page.UI) (w : Page.World) :
  same_fixed u (Page.recover server setItem_ok grecaptcha ui message u w).1
  ∧ Page.submitting (Page.recover server setItem_ok grecaptcha ui message u w).1 = Page.submitting u
  ∧ Page.votesRemaining (Page.recover server setItem_ok grecaptcha ui message u w).1
    = Page.votesRemaining u
  ∧ Page.contestant (Page.recover server setItem_ok grecaptcha ui message u w).1 = Page.contestant u.
Proof.
  unfold Page.recover.
  match goal with |- context [if ?c then _ else _] => destruct c end.
  - destruct (Page.identifiers ui) as [ids|]; [|simpl; repeat split].
    destruct (Page.initializeToken server setItem_ok ids w) as [[updated|failure] w1];
      [|simpl; repeat split].
    destruct (Client.s_is_suspicious updated); [|simpl; repeat split].
    match goal with |- context [if ?c then Page.loadRecaptchaSiteKey _ ?u0 _ else _] =>
      destruct (maybe_load_fixed c u0 w1) as ((H1 & H2 & H3) & H4 & H5 & H6 & _);
      destruct (if c then Page.loadRecaptchaSiteKey server u0 w1 else (u0, w1)) as [u2 w2]
    end.
    simpl in *. unfold same_fixed. simpl. repeat split; congruence.
  - match goal with |- context [if ?c then _ else _] => destruct c end;
      [|simpl; repeat split].
    destruct (Page.identifiers ui) as [ids|]; [|simpl; repeat split].
    destruct (Page.initializeToken server setItem_ok ids w) as [[updated|failure] w1];
      simpl; repeat split.
Qed.

Lemma attempt_fixed (ui u : Page.UI) (w : Page.World) :
  same_fixed u (Page.attempt server setItem_ok now getTime grecaptcha null_read ui u w).1.2
  ∧ Page.submitting (Page.attempt server setItem_ok now getTime grecaptcha null_read ui u w).1.2 = true.
Proof.
  unfold Page.attempt.
  destruct (Page.identifiers ui) as [ids|]; [|simpl; repeat split].
  destruct (Page.ensureValidToken server setItem_ok now getTime ids w) as [[session|failure] w1];
    [|simpl; repeat split].
  destruct (Client.s_is_suspicious session).
  - match goal with |- context [if ?c then Page.loadRecaptchaSiteKey _ ?u0 _ else _] =>
      destruct (maybe_load_fixed c u0 w1) as ((H1 & H2 & H3) & H4 & _);
      destruct (if c then Page.loadRecaptchaSiteKey server u0 w1 else (u0, w1)) as [u2 w2]
    end.
    simpl in *. unfold same_fixed.
    destruct (negb (truthy (Page.recaptchaToken ui)));
      split_cases; simpl; repeat split; congruence.
  - unfold same_fixed. split_cases; simpl; repeat split; congruence.
Qed.

(** X21.  A submission never sets the identifiers, the loading flag or
    the id of the reCAPTCHA widget; with an input that is blank once
    trimmed it leaves the submitting flag and the world alone and shows
    the request to enter a name; otherwise it ends with the submitting
    flag lowered, whatever was thrown on the way. *)
Theorem handleSubmit_fixed :
  ∀ (ui : Page.UI) (w : Page.World),
    let answer := Page.handleSubmit server setItem_ok now getTime trim grecaptcha null_read ui w in
    same_fixed ui answer.1
    ∧ (trim (Page.contestant ui) = EmptyString
       → answer.2 = w
         ∧ Page.submitting answer.1 = Page.submitting ui
         ∧ Page.contestant answer.1 = Page.contestant ui
         ∧ Page.votesRemaining answer.1 = Page.votesRemaining ui
         ∧ Page.message answer.1 = Some "Please enter a contestant last name"
         ∧ Page.messageType answer.1 = "error")
    ∧ (trim (Page.contestant ui) ≠ EmptyString → Page.submitting answer.1 = false).
Proof.
  intros ui w. cbv zeta. unfold Page.handleSubmit.
  destruct (decide (trim (Page.contestant ui) = EmptyString)) as [Hblank|Hname].
  - rewrite Hblank. simpl. repeat split; congruence.
  - rewrite (proj2 (truthy_some _) Hname). cbn [negb].
    destruct (attempt_fixed ui (Page.setMessageType EmptyString (Page.setMessage None ui)) w)
      as [Hfixed _].
    destruct (Page.attempt server setItem_ok now getTime grecaptcha null_read ui
                (Page.setMessageType EmptyString (Page.setMessage None ui)) w)
      as [[thrown u1] w1].
    simpl in Hfixed.
    assert (same_fixed u1
              (match thrown with
               | Some message => Page.recover server setItem_ok grecaptcha ui message u1 w1
               | None => (u1, w1)
               end).1) as Hrecover.
    { destruct thrown as [message|]; [apply recover_fixed | apply same_fixed_refl]. }
    destruct (match thrown with
              | Some message => Page.recover server setItem_ok grecaptcha ui message u1 w1
              | None => (u1, w1)
              end) as [u2 w2].
    simpl in *. split; [|split; [contradiction | reflexivity]].
    pose proof (same_fixed_trans _ _ _ Hfixed Hrecover) as H.
    unfold same_fixed in *. simpl in *. exact H.
Qed.

(** X22.  When the session that [ensureValidToken] gives is flagged and
    the render holds no reCAPTCHA token, the submission posts no vote: it
    marks the page as suspicious, asks for the site key if the render has
    none, shows the request to complete the reCAPTCHA and ends with the
    submitting flag lowered. *)
Theorem flagged_session_needs_proof :
  ∀ (ui : Page.UI) (w w1 : Page.World) (ids : Device.Identifiers)
    (session : Client.SessionData),
    trim (Page.contestant ui) ≠ EmptyString →
    Page.identifiers ui = Some ids →
    Page.ensureValidToken server setItem_ok now getTime ids w = (Client.Returned session, w1) →
    Client.s_is_suspicious session = true →
    truthy (Page.recaptchaToken ui) = false →
    let answer := Page.handleSubmit server setItem_ok now getTime trim grecaptcha null_read ui w in
    (∃ new, sent_since w answer.2 new ∧ no_vote new)
    ∧ Page.store answer.2 = Page.store w1
    ∧ Page.message answer.1
      = Some "Please complete the reCAPTCHA verification to continue."
    ∧ Page.messageType answer.1 = "error"
    ∧ Page.isSuspicious answer.1 = true
    ∧ Page.submitting answer.1 = false
    ∧ Page.contestant answer.1 = Page.contestant ui
    ∧ Page.votesRemaining answer.1 = Page.votesRemaining ui.
Proof.
  intros ui w w1 ids session Hname Hids Hsession Hflag Hproof. cbv zeta.
  destruct (ensureValidToken_sent ids w) as (new1 & H1 & Hv1).
  unfold Page.handleSubmit, Page.attempt.
  rewrite (proj2 (truthy_some _) Hname), Hids, Hsession in *. cbn [negb snd] in *.
  rewrite Hflag, Hproof. cbn [negb].
  match goal with |- context [if ?c then Page.loadRecaptchaSiteKey _ ?u0 _ else _] =>
    destruct (maybe_load_sent c u0 w1) as (new2 & H2 & Hv2);
    destruct (maybe_load_fixed c u0 w1) as (_ & _ & Hvotes & Hcontestant & Hsusp);
    assert (Page.store (if c then Page.loadRecaptchaSiteKey server u0 w1 else (u0, w1)).2
            = Page.store w1) as Hstore by (destruct c; reflexivity);
    destruct (if c then Page.loadRecaptchaSiteKey server u0 w1 else (u0, w1)) as [u2 w2]
  end.
  simpl in *. split.
  { exists (new1 ++ new2)%list. split; [exact (sent_since_trans _ _ _ _ _ H1 H2)|].
    apply Forall_app. auto. }
  repeat split; auto.
Qed.


(** X24.  With a stored session that is fresh and not flagged, a vote
    that the server rejects with a detail naming neither a CAPTCHA, a
    verification required, an expiry nor an invalid token is shown as the
    error, word for word; nothing else is requested, and the input, the
    votes remaining and the stored session stay what they were. *)
Theorem rejected_vote_shows_detail :
  ∀ (ui : Page.UI) (w : Page.World) (ids : Device.Identifiers)
    (session : Client.SessionData) (result : Page.Obj) (text : string),
    trim (Page.contestant ui) ≠ EmptyString →
    Page.identifiers ui = Some ids →
    Page.store w = Some session →
    Client.isTokenExpired getTime now (Client.s_expires_at session) = false →
    Client.s_is_suspicious session = false →
    server (Page.sent w ++ [Page.PostVote (Client.s_token session) (Page.contestant ui)
                              (Client.s_fingerprint session) EmptyString])%list
    = Page.Replied false (Page.Json result) →
    Page.detail result = Some text →
    text ≠ EmptyString →
    Page.includes "CAPTCHA" text = false →
    Page.includes "verification required" text = false →
    Page.includes "expired" text = false →
    Page.includes "Invalid token" text = false →
    Page.handleSubmit server setItem_ok now getTime trim grecaptcha null_read ui w
    = (Page.setSubmitting false
         (Page.report "error" text
            (Page.setSubmitting true
               (Page.setMessageType EmptyString (Page.setMessage None ui)))),
       {| Page.store := Page.store w;
          Page.sent := (Page.sent w ++ [Page.PostVote (Client.s_token session)
                          (Page.contestant ui) (Client.s_fingerprint session)
                          EmptyString])%list;
          Page.resets := Page.resets w; Page.service := Page.service w;
          Page.browser := Page.browser w |}).
Proof.
  intros ui w ids session result text Hname Hids Hstore Hfresh Hclean Hreply Hdetail
    Htext Hc Hv He Hi.
  unfold Page.handleSubmit, Page.attempt, Page.ensureValidToken, Client.getSession.
  rewrite (proj2 (truthy_some _) Hname), Hids, Hstore, Hfresh, Hclean. cbn [negb].
  unfold Page.submitVote, Page.fetch, Page.vote_request, Page.or_else. cbn [truthy default].
  rewrite Hreply. cbn [Page.vote_result]. rewrite Hdetail.
  unfold Page.or_else. rewrite (proj2 (truthy_some _) Htext). cbn [default].
  cbv beta iota zeta. unfold Page.recover, id. rewrite Hc, Hv, He, Hi. cbn [orb].
  unfold Page.or_else. rewrite (proj2 (truthy_some _) Htext). cbn [default].
  cbv beta iota zeta. rewrite ?Hstore. reflexivity.
Qed.

End Page_requests.

Lemma or_else_filled (x : option string) (fallback : string) :
  fallback ≠ EmptyString → Page.or_else x fallback ≠ EmptyString.
Proof.
  intros Hfallback. unfold Page.or_else. destruct (truthy x) eqn:Hx; [|exact Hfallback].
  destruct x as [s|]; [|discriminate]. simpl. apply truthy_some. exact Hx.
Qed.



Lemma or_zero_twice (x : option Z) : Client.or_zero (Some (Client.or_zero x)) = Client.or_zero x.
Proof. apply or_zero_some. Qed.

(** X27.  [initializeSession] always ends with the loading flag lowered
    and sends no vote.  Either it shows an error whose text is not empty
    and leaves the votes remaining, the suspicious mark and the stored
    session as they were; or the server answered the token request with
    an ok status and a JSON body, and then the session made of that body
    is written to the storage, which holds it unless the write fails and
    then holds what it held, the identifiers are set, the votes remaining are
    min(3 - device votes, 3 - address votes) of that body (a missing
    count taken as 0), the page is marked suspicious as the body says,
    and the site key is asked for exactly when it is. *)
Theorem initializeSession_outcomes :
  ∀ (server : list Page.Request → Page.Reply) (setItem_ok : list Page.Request → bool)
    (u : Page.UI) (w : Page.World) (r : Device.Readings),
    let answer := Page.initializeSession server setItem_ok u w r in
    Page.loading answer.1 = false
    ∧ ((∃ text, text ≠ EmptyString
          ∧ Page.message answer.1 = Some text
          ∧ Page.messageType answer.1 = "error"
          ∧ Page.votesRemaining answer.1 = Page.votesRemaining u
          ∧ Page.isSuspicious answer.1 = Page.isSuspicious u
          ∧ Page.store answer.2 = Page.store w
          ∧ no_vote (drop (length (Page.sent w)) (Page.sent answer.2)))
       ∨ (∃ ids data,
            (Device.getIdentifiers (Page.service w) (Page.browser w) r).1.1
            = Client.Returned ids
            ∧ server (Page.sent w ++ [Page.GetToken (Device.id_visitorId ids)
                                        (Device.id_localId ids)])%list
              = Page.Replied true (Page.Json data)
            ∧ Page.identifiers answer.1 = Some ids
            ∧ Page.store answer.2
              = (if setItem_ok (Page.sent w ++ [Page.GetToken (Device.id_visitorId ids)
                                                  (Device.id_localId ids)])%list
                 then Some (Client.session_of (Page.tokenData_of data))
                 else Page.store w)
            ∧ Page.votesRemaining answer.1
              = spec_votes_remaining 3 3 (Client.or_zero (Page.o_votes_used data))
                  (Client.or_zero (Page.o_votes_used_from_ip data))
            ∧ Page.isSuspicious answer.1 = Client.or_false (Page.o_is_suspicious data)
            ∧ Page.sent answer.2
              = (Page.sent w
                 ++ Page.GetToken (Device.id_visitorId ids) (Device.id_localId ids)
                    :: if Client.or_false (Page.o_is_suspicious data)
                       then [Page.GetSiteKey] else [])%list)).
Proof.
  intros server setItem_ok u w r. cbv zeta. unfold Page.initializeSession.
  destruct (Device.getIdentifiers (Page.service w) (Page.browser w) r)
    as [[[ids|failure] svc] b]; cbn [fst snd].
  - unfold Page.initializeToken, Page.fetch. cbn [Page.sent Page.store].
    destruct (server (Page.sent w ++ [Page.GetToken (Device.id_visitorId ids)
                                        (Device.id_localId ids)])%list)
      as [[|] [data|failure]|failure] eqn:Hreply; cbn [Page.fetchToken Client.initializeToken].
    + (* the token is there *)
      cbv beta iota zeta. unfold Page.with_store, Client.setSession.
      cbn [Page.sent Page.store].
      assert (Client.votesRemaining (Client.session_of (Page.tokenData_of data))
              = spec_votes_remaining 3 3 (Client.or_zero (Page.o_votes_used data))
                  (Client.or_zero (Page.o_votes_used_from_ip data))) as Hvotes.
      { unfold Client.votesRemaining, spec_votes_remaining, Client.session_of,
          Page.tokenData_of. cbn [Client.s_votes_used Client.s_votes_used_from_ip
          Client.td_votes_used Client.td_votes_used_from_ip].
        rewrite !or_zero_twice. lia. }
      destruct (Client.or_false (Page.o_is_suspicious data)) eqn:Hflag.
      * assert (Client.s_is_suspicious (Client.session_of (Page.tokenData_of data)) = true)
          as -> by exact Hflag.
        unfold Page.loadRecaptchaSiteKey, Page.fetch. cbn [Page.sent Page.store].
        split; [split_cases; reflexivity|]. right. exists ids, data.
        split; [reflexivity|]. split; [exact Hreply|].
        split_cases; try congruence; cbn; rewrite <- ?app_assoc;
          repeat split; rewrite ?Hflag; auto.
      * assert (Client.s_is_suspicious (Client.session_of (Page.tokenData_of data)) = false)
          as -> by exact Hflag.
        cbn. split; [reflexivity|]. right. exists ids, data.
        repeat split; rewrite ?Hflag; auto.
    + cbv beta iota zeta. cbn. split; [reflexivity|]. left.
      exists (Page.or_else (Some failure) "Failed to initialize session").
      split; [apply or_else_filled; discriminate|]. repeat split.
      rewrite drop_app_length. repeat constructor.
    + cbv beta iota zeta. cbn. split; [reflexivity|]. left.
      exists (Page.or_else
                (Some (Page.or_else (Page.detail data) "Failed to fetch token"))
                "Failed to initialize session").
      split; [apply or_else_filled; discriminate|]. repeat split.
      rewrite drop_app_length. repeat constructor.
    + cbv beta iota zeta. cbn. split; [reflexivity|]. left.
      exists (Page.or_else
                (Some (Page.or_else (Some "Token fetch failed") "Failed to fetch token"))
                "Failed to initialize session").
      split; [apply or_else_filled; discriminate|]. repeat split.
      rewrite drop_app_length. repeat constructor.
    + cbv beta iota zeta. cbn. split; [reflexivity|]. left.
      exists (Page.or_else (Some failure) "Failed to initialize session").
      split; [apply or_else_filled; discriminate|]. repeat split.
      rewrite drop_app_length. repeat constructor.
  - cbn. split; [reflexivity|]. left.
    exists (Page.or_else (Some failure) "Failed to initialize session").
    split; [apply or_else_filled; discriminate|]. repeat split.
    rewrite drop_all. constructor.
Qed.

Lemma flagged_session_needs_proof_witness :
  Page.message
    (Page.handleSubmit
       (answering (Page.Replied true
                     (Page.Json (sample_result (Some true) (Some "ok") (Some 2)))))
       storage_free 0 (λ _, Some 1000000) (λ s, s) true "null" (typing "Smith") (sample_world true)).1
  = Some "Please complete the reCAPTCHA verification to continue.".
Proof.
  refine (proj1 (proj2 (proj2
    (flagged_session_needs_proof
       (answering (Page.Replied true
                     (Page.Json (sample_result (Some true) (Some "ok") (Some 2)))))
       storage_free 0 (λ _, Some 1000000) (λ s, s) true "null" (typing "Smith") (sample_world true)
       (sample_world true) sample_ids (sample_session true) _ _ _ _ _)))).
  - discriminate.
  - reflexivity.
  - reflexivity.
  - reflexivity.
  - reflexivity.
Defined.


Lemma rejected_vote_shows_detail_witness :
  Page.message
    (Page.handleSubmit
       (answering (Page.Replied false
                     (Page.Json (sample_result None (Some "Vote limit reached") None))))
       storage_free 0 (λ _, Some 1000000) (λ s, s) true "null" (typing "Smith") (sample_world false)).1
  = Some "Vote limit reached".
Proof.
  rewrite (rejected_vote_shows_detail
       (answering (Page.Replied false
                     (Page.Json (sample_result None (Some "Vote limit reached") None))))
       storage_free 0 (λ _, Some 1000000) (λ s, s) true "null" (typing "Smith") (sample_world false)
       sample_ids (sample_session false)
       (sample_result None (Some "Vote limit reached") None) "Vote limit reached").
  - reflexivity.
  - discriminate.
  - reflexivity.
  - reflexivity.
  - reflexivity.
  - reflexivity.
  - reflexivity.
  - reflexivity.
  - discriminate.
  - vm_compute. reflexivity.
  - vm_compute. reflexivity.
  - vm_compute. reflexivity.
  - vm_compute. reflexivity.
Defined.

(** ** The substring test of the error messages *)

Lemma prefix_append (part s : string) :
  String.prefix part s = true ↔ ∃ rest, s = String.append part rest.
Proof.
  revert s. induction part as [|a part IH]; intros s; simpl.
  - split; [intros _; exists s; reflexivity | intros _; destruct s; reflexivity].
  - destruct s as [|b s]; simpl.
    + split; [discriminate | intros [rest Hrest]; discriminate].
    + destruct (Ascii.ascii_dec a b) as [->|Hne].
      * rewrite IH. split; intros [rest Hrest]; exists rest.
        -- rewrite Hrest. reflexivity.
        -- simpl in Hrest. injection Hrest as Hrest. exact Hrest.
      * split; [discriminate|]. intros [rest Hrest]. simpl in Hrest.
        injection Hrest as Hab _. symmetry in Hab. contradiction.
Qed.

Lemma includes_cons (part : string) (a : Ascii.ascii) (s : string) :
  Page.includes part (String a s)
  = String.prefix part (String a s) || Page.includes part s.
Proof. reflexivity. Qed.

(** [includes part s] holds exactly when [part] occurs in [s]. *)
Lemma includes_occurs (part s : string) :
  Page.includes part s = true
  ↔ ∃ before after, s = String.append before (String.append part after).
Proof.
  induction s as [|a s IH].
  - change (Page.includes part EmptyString) with (String.prefix part EmptyString || false).
    rewrite orb_false_r, prefix_append. split.
    + intros [rest Hrest]. exists EmptyString, rest. exact Hrest.
    + intros (before & after & Hs). destruct before; simpl in Hs; [|discriminate].
      exists after. exact Hs.
  - rewrite includes_cons, orb_true_iff, IH, (prefix_append part (String a s)). split.
    + intros [[rest Hrest]|(before & after & Hs)].
      * exists EmptyString, rest. exact Hrest.
      * exists (String a before), after.
        change (String a s = String a (String.append before (String.append part after))).
        f_equal. exact Hs.
    + intros (before & after & Hs). destruct before as [|b before]; simpl in Hs.
      * left. exists after. exact Hs.
      * right. injection Hs as _ Hs. exists before, after. exact Hs.
Qed.
